(** * Coal Log Book Digitizer: a shallow embedding of the UI handlers

    The application is a single React component ([App]) whose event
    handlers drive camera capture, file upload, table extraction through an
    HTTP endpoint, CSV export and reset, plus a stand-alone client function
    ([processTableImage]) that calls a generative-AI endpoint directly.

    The embedding follows the source:
    - JavaScript values that reach the handlers from the network are
      untyped, so they are modelled by [JSValue];
    - [useState] cells and [useRef] cells are the fields of one [State]
      record, updated through setters;
    - everything the handlers do to the outside world ([track.stop()],
      [fetch], [console.error], [alert], the file download) is appended to
      an effect log carried by the state;
    - [throw] / [try] / [catch] / [finally] are the operations of a small
      state-and-exception monad in which the state survives a throw. *)

From Stdlib Require Import Bool Arith List String Ascii QArith Lia.
From Stdlib Require Import DecimalString.
Import ListNotations.
Close Scope Q_scope.
Open Scope nat_scope.
Open Scope string_scope.
Open Scope list_scope.

Set Implicit Arguments.
Set Warnings "-register-all".

(* ================================================================== *)
(** * JavaScript values and the built-ins the program calls            *)
(* ================================================================== *)

Module JS.

(** Strings are sequences of code units; the model keeps code units in
    the one-byte range, which is enough for every literal the source
    mentions. Every statement about strings below is a statement about
    such strings: code units from 256 on (among them the line terminators
    U+2028 and U+2029 and the white space [trim] removes beyond NBSP)
    cannot occur in them. *)

Definition LF : ascii := "010"%char.
Definition CR : ascii := "013"%char.
Definition nl : string := String LF EmptyString.

(** The values [JSON.parse] can return, plus [undefined]. *)
Inductive JSValue : Type :=
| JUndefined
| JNull
| JBool (b : bool)
| JNum (q : Q)
| JStr (s : string)
| JArr (xs : list JSValue)
| JObj (fields : list (string * JSValue)).

(** What a [throw] carries. [fetch] rejects with a [TypeError], property
    reads on [null] / [undefined] and calls of non-functions throw a
    [TypeError], [JSON.parse] throws a [SyntaxError]; [Error msg] is
    [new Error(msg)]. *)
Inductive Exn : Type :=
| Error (msg : string)
| TypeError
| SyntaxError.

(** ToBoolean. *)
Definition truthy (v : JSValue) : bool :=
  match v with
  | JUndefined | JNull => false
  | JBool b => b
  | JNum q => negb (Qeq_bool q 0%Q)
  | JStr s => negb (s =? "")
  | JArr _ | JObj _ => true
  end.

(** ToBoolean of a [string | null] cell. *)
Definition truthy_str (o : option string) : bool :=
  match o with
  | Some s => negb (s =? "")
  | None => false
  end.

Fixpoint lookup_field (k : string) (fields : list (string * JSValue))
  : option JSValue :=
  match fields with
  | [] => None
  | (k', v) :: rest => if k' =? k then Some v else lookup_field k rest
  end.

(** [v.k] for a property name [k] that is not a built-in member of a
    prototype (all names the program reads are of this kind). *)
Definition get_prop (v : JSValue) (k : string) : Exn + JSValue :=
  match v with
  | JUndefined | JNull => inl TypeError
  | JObj fields =>
      match lookup_field k fields with
      | Some x => inr x
      | None => inr JUndefined
      end
  | JBool _ | JNum _ | JStr _ | JArr _ => inr JUndefined
  end.

Definition index_key (i : nat) : string :=
  NilEmpty.string_of_uint (Nat.to_uint i).

(** [v[i]] for a numeric index. *)
Definition get_index (v : JSValue) (i : nat) : Exn + JSValue :=
  match v with
  | JUndefined | JNull => inl TypeError
  | JArr xs => inr (nth i xs JUndefined)
  | JStr s =>
      match String.get i s with
      | Some c => inr (JStr (String c EmptyString))
      | None => inr JUndefined
      end
  | JObj fields =>
      match lookup_field (index_key i) fields with
      | Some x => inr x
      | None => inr JUndefined
      end
  | JBool _ | JNum _ => inr JUndefined
  end.

(** The receiver of an array method ([.map], [.join]): on anything that
    is not an array the method lookup or the call throws. *)
Definition as_array (v : JSValue) : Exn + list JSValue :=
  match v with
  | JArr xs => inr xs
  | _ => inl TypeError
  end.

(** [Array.prototype.join] on strings: the result starts empty; before
    every element but the first the separator is appended, then the
    element. *)
Definition join_step (sep : string) (acc : bool * string) (x : string)
  : bool * string :=
  let (first, R) := acc in
  (false, ((if first then R else R ++ sep) ++ x)%string).

Definition join (sep : string) (xs : list string) : string :=
  snd (fold_left (join_step sep) xs (true, "")).

(** [String.prototype.split] with a one-character separator. *)
Fixpoint split (sep : ascii) (s : string) : list string :=
  match s with
  | EmptyString => [EmptyString]
  | String c rest =>
      if Ascii.eqb c sep then EmptyString :: split sep rest
      else match split sep rest with
           | h :: t => String c h :: t
           | [] => [String c EmptyString]
           end
  end.

(** [String.prototype.startsWith]. *)
Definition startsWith (p s : string) : bool := String.prefix p s.

(** Line terminators are what [.] in a regular expression refuses:
    within the one-byte range these are LF and CR. *)
Definition is_line_terminator (c : ascii) : bool :=
  Ascii.eqb c LF || Ascii.eqb c CR.

(** White space and line terminators as [String.prototype.trim] removes
    them, within the one-byte range: TAB, LF, VT, FF, CR, SP and NBSP. *)
Definition is_trim_space (c : ascii) : bool :=
  let n := nat_of_ascii c in
  ((9 <=? n)%nat && (n <=? 13)%nat) || (n =? 32)%nat || (n =? 160)%nat.

Fixpoint trimStart (s : string) : string :=
  match s with
  | EmptyString => EmptyString
  | String c rest => if is_trim_space c then trimStart rest else s
  end.

Fixpoint trimEnd (s : string) : string :=
  match s with
  | EmptyString => EmptyString
  | String c rest =>
      match trimEnd rest with
      | EmptyString => if is_trim_space c then EmptyString
                       else String c EmptyString
      | r => String c r
      end
  end.

Definition trim (s : string) : string := trimEnd (trimStart s).

(** If [p] is a prefix of [s], what follows it. *)
Fixpoint strip_prefix (p s : string) : option string :=
  match p, s with
  | EmptyString, _ => Some s
  | String a p', String b s' =>
      if Ascii.eqb a b then strip_prefix p' s' else None
  | String _ _, EmptyString => None
  end.

(** The longest run of characters [.] accepts at the front of [s]. *)
Fixpoint dot_run (s : string) : string :=
  match s with
  | EmptyString => EmptyString
  | String c rest =>
      if is_line_terminator c then EmptyString else String c (dot_run rest)
  end.

(** An attempt of the pattern [lit(.+)] at the front of [s]: the literal,
    then a greedy non-empty run of [.]; the result is capture group 1. *)
Definition match_here (lit s : string) : option string :=
  match strip_prefix lit s with
  | Some rest =>
      match dot_run rest with
      | EmptyString => None
      | cap => Some cap
      end
  | None => None
  end.

(** [s.match(/lit(.+)/)] without the global flag: the leftmost position
    where the pattern matches; [None] is JavaScript's [null], [Some cap]
    is the match array's element 1. *)
Fixpoint match_literal_dots (lit s : string) : option string :=
  match match_here lit s with
  | Some cap => Some cap
  | None =>
      match s with
      | EmptyString => None
      | String _ rest => match_literal_dots lit rest
      end
  end.

(** [xs.map(f)] for a callback that may throw: elements are visited in
    order and the first throw aborts the call. *)
Fixpoint map_throwing {A B} (f : A -> Exn + B) (xs : list A)
  : Exn + list B :=
  match xs with
  | [] => inr []
  | x :: rest =>
      match f x with
      | inl e => inl e
      | inr y =>
          match map_throwing f rest with
          | inl e => inl e
          | inr ys => inr (y :: ys)
          end
      end
  end.

(** Sequencing of pure steps that may throw. *)
Definition and_then {A B} (r : Exn + A) (k : A -> Exn + B) : Exn + B :=
  match r with
  | inl e => inl e
  | inr a => k a
  end.

(** The platform functions the model does not implement: the JSON
    grammar and the decimal rendering of numbers. *)
Class Runtime : Type := {
  JSON_parse : string -> option JSValue;
  Number_toString : Q -> string
}.

Section WithRuntime.
Context {RT : Runtime}.

(** ToString, which can throw. A plain object converts through
    [Object.prototype.toString] to the fixed text; an object with an own
    property named toString (never callable in parsed JSON) has no usable
    conversion and the attempt throws a [TypeError], whatever its
    valueOf. An array converts as [join(',')], its [null] and [undefined]
    elements as the empty string; the first element that throws aborts
    the conversion. *)
Fixpoint ToString (v : JSValue) : Exn + string :=
  match v with
  | JUndefined => inr "undefined"
  | JNull => inr "null"
  | JBool true => inr "true"
  | JBool false => inr "false"
  | JNum q => inr (Number_toString q)
  | JStr s => inr s
  | JArr xs =>
      match
        (fix elems (l : list JSValue) : Exn + list string :=
           match l with
           | [] => inr []
           | x :: r =>
               match match x with
                     | JUndefined | JNull => inr ""
                     | _ => ToString x
                     end with
               | inl e => inl e
               | inr first =>
                   match elems r with
                   | inl e => inl e
                   | inr others => inr (first :: others)
                   end
               end
           end) xs
      with
      | inl e => inl e
      | inr parts => inr (join "," parts)
      end
  | JObj fields =>
      match lookup_field "toString" fields with
      | Some _ => inl TypeError
      | None => inr "[object Object]"
      end
  end.

(** The string an element contributes to [Array.prototype.join]. *)
Definition join_element (v : JSValue) : Exn + string :=
  match v with
  | JUndefined | JNull => inr ""
  | _ => ToString v
  end.

(** [xs.join(sep)] on an array of arbitrary values. *)
Definition join_values (sep : string) (xs : list JSValue) : Exn + string :=
  and_then (map_throwing join_element xs) (fun parts =>
  inr (join sep parts)).

(** [JSON.parse(v)]: the argument is converted to a string first. *)
Definition JSON_parse_value (v : JSValue) : Exn + JSValue :=
  and_then (ToString v) (fun source =>
  match JSON_parse source with
  | Some r => inr r
  | None => inl SyntaxError
  end).
End WithRuntime.

End JS.

(* ================================================================== *)
(** * Control flow: state, exceptions and the effect log               *)
(* ================================================================== *)

Module Ctl.
Import JS.

(** A computation over a mutable store [S] that may throw. The store is
    returned in both cases: what was written before a [throw] stays
    written. *)
Definition M (S A : Type) : Type := S -> S * (Exn + A).

Section Ops.
Variable S : Type.

Definition ret {A} (a : A) : M S A := fun s => (s, inr a).

Definition throw {A} (e : Exn) : M S A := fun s => (s, inl e).

Definition bind {A B} (m : M S A) (k : A -> M S B) : M S B :=
  fun s =>
    match m s with
    | (s', inr a) => k a s'
    | (s', inl e) => (s', inl e)
    end.

(** A pure step that may throw (a property read, a method call). *)
Definition lift {A} (r : Exn + A) : M S A := fun s => (s, r).

Definition gets {A} (f : S -> A) : M S A := fun s => (s, inr (f s)).

Definition modify (f : S -> S) : M S unit := fun s => (f s, inr tt).

(** [try { body } catch (err) { handler err }] *)
Definition try_catch {A} (body : M S A) (handler : Exn -> M S A) : M S A :=
  fun s =>
    match body s with
    | (s', inl e) => handler e s'
    | (s', inr a) => (s', inr a)
    end.

(** [try { body } finally { fin }]: [fin] runs on both exits; the
    outcome is the body's unless [fin] itself throws. *)
Definition try_finally {A} (body : M S A) (fin : M S unit) : M S A :=
  fun s =>
    match body s with
    | (s', r) =>
        match fin s' with
        | (s'', inr _) => (s'', r)
        | (s'', inl e) => (s'', inl e)
        end
    end.

(** [xs.forEach(f)] *)
Fixpoint forEach {A} (xs : list A) (f : A -> M S unit) : M S unit :=
  match xs with
  | [] => ret tt
  | x :: rest => bind (f x) (fun _ => forEach rest f)
  end.
End Ops.

Arguments ret {S A} a.
Arguments throw {S A} e.
Arguments bind {S A B} m k.
Arguments lift {S A} r.
Arguments gets {S A} f.
Arguments modify {S} f.
Arguments try_catch {S A} body handler.
Arguments try_finally {S A} body fin.
Arguments forEach {S A} xs f.

Declare Scope js_scope.
Delimit Scope js_scope with js.
Notation "x <- m ;; k" := (bind m (fun x => k))
  (at level 61, m at next level, right associativity) : js_scope.
Notation "m ;; k" := (bind m (fun _ => k))
  (at level 61, right associativity) : js_scope.

(** ** The outside world *)

Definition Track : Type := nat.

Record MediaStream : Type := { getTracks : list Track }.

Record Request : Type := {
  url : string;
  method : string;
  http_headers : list (string * string);
  (** the object handed to [JSON.stringify] *)
  body : JSValue
}.

Record Response : Type := {
  status : nat;
  text : string
}.

(** [response.ok]: a status in the range 200-299. *)
Definition ok (r : Response) : bool :=
  (200 <=? status r)%nat && (status r <=? 299)%nat.

(** [fetch] either rejects or resolves with a response. *)
Definition Network : Type := Request -> option Response.

(** What the program does to the outside world, in the order it does
    it. [Acquired] records that [getUserMedia] handed over a stream, so
    that acquisitions can be told from releases ([TrackStop], one per
    call of [track.stop()]). [Uncaught] is an exception that left an
    event handler. *)
Inductive Effect : Type :=
| Acquired (stream : MediaStream)
| TrackStop (track : Track)
| Fetch (req : Request)
| ConsoleError (label : string) (e : Exn)
| Alert (msg : string)
| Download (filename content : string)
| Uncaught (e : Exn).

Section Net.
Context {RT : Runtime}.
Variable S : Type.
Variable emit : Effect -> M S unit.

Open Scope js_scope.

(** [await fetch(url, init)] *)
Definition fetch (net : Network) (req : Request) : M S Response :=
  emit (Fetch req) ;;
  match net req with
  | Some r => ret r
  | None => throw TypeError
  end.

(** [await response.json()] *)
Definition json (r : Response) : M S JSValue :=
  match JSON_parse (text r) with
  | Some v => ret v
  | None => throw SyntaxError
  end.
End Net.

End Ctl.

(* ================================================================== *)
(** * The [App] component                                              *)
(* ================================================================== *)

Module App.
Import JS Ctl.
Open Scope js_scope.

(** [interface TableData] *)
Record TableData : Type := {
  headers : list string;
  rows : list (list string)
}.

(** A well-typed [TableData] as the JavaScript object it is. *)
Definition of_TableData (t : TableData) : JSValue :=
  JObj [ ("headers", JArr (map JStr (headers t)));
         ("rows", JArr (map (fun row => JArr (map JStr row)) (rows t))) ].

Record VideoElement : Type := { srcObject : option MediaStream }.

Record Canvas : Type := { width : nat; height : nat }.

(** The five [useState] cells, the [useRef] cells the handlers read, and
    the log of effects performed so far. *)
Record State : Type := mkState {
  capturedImage : option string;
  isProcessing : bool;
  extractedData : JSValue;
  error : option string;
  showCamera : bool;
  videoRef : option VideoElement;
  canvasRef : option Canvas;
  streamRef : option MediaStream;
  effects : list Effect
}.

Definition setCapturedImage (v : option string) (s : State) : State :=
  mkState v (isProcessing s) (extractedData s) (error s) (showCamera s)
          (videoRef s) (canvasRef s) (streamRef s) (effects s).

Definition setIsProcessing (v : bool) (s : State) : State :=
  mkState (capturedImage s) v (extractedData s) (error s) (showCamera s)
          (videoRef s) (canvasRef s) (streamRef s) (effects s).

Definition setExtractedData (v : JSValue) (s : State) : State :=
  mkState (capturedImage s) (isProcessing s) v (error s) (showCamera s)
          (videoRef s) (canvasRef s) (streamRef s) (effects s).

Definition setError (v : option string) (s : State) : State :=
  mkState (capturedImage s) (isProcessing s) (extractedData s) v
          (showCamera s) (videoRef s) (canvasRef s) (streamRef s) (effects s).

Definition setShowCamera (v : bool) (s : State) : State :=
  mkState (capturedImage s) (isProcessing s) (extractedData s) (error s) v
          (videoRef s) (canvasRef s) (streamRef s) (effects s).

Definition set_videoRef (v : option VideoElement) (s : State) : State :=
  mkState (capturedImage s) (isProcessing s) (extractedData s) (error s)
          (showCamera s) v (canvasRef s) (streamRef s) (effects s).

Definition set_canvasRef (v : option Canvas) (s : State) : State :=
  mkState (capturedImage s) (isProcessing s) (extractedData s) (error s)
          (showCamera s) (videoRef s) v (streamRef s) (effects s).

Definition set_streamRef (v : option MediaStream) (s : State) : State :=
  mkState (capturedImage s) (isProcessing s) (extractedData s) (error s)
          (showCamera s) (videoRef s) (canvasRef s) v (effects s).

Definition add_effect (e : Effect) (s : State) : State :=
  mkState (capturedImage s) (isProcessing s) (extractedData s) (error s)
          (showCamera s) (videoRef s) (canvasRef s) (streamRef s)
          (effects s ++ [e]).

Definition emit (e : Effect) : M State unit := modify (add_effect e).

(** The state cells before the first render. *)
Definition initial : State :=
  mkState None false JNull None false None None None [].

(** *** startCamera

    [getUserMedia] is the outcome of
    [await navigator.mediaDevices.getUserMedia(...)]: a stream, or the
    rejection. *)
Definition startCamera (getUserMedia : Exn + MediaStream) : M State unit :=
  try_catch
    (stream <- lift getUserMedia ;;
     emit (Acquired stream) ;;
     modify (set_streamRef (Some stream)) ;;
     video <- gets videoRef ;;
     match video with
     | Some _ =>
         modify (set_videoRef (Some {| srcObject := Some stream |})) ;;
         modify (setShowCamera true)
     | None => ret tt
     end)
    (fun err =>
       modify (setError
                 (Some "Unable to access camera. Please check permissions."))).

(** *** stopCamera *)
Definition stopCamera : M State unit :=
  current <- gets streamRef ;;
  match current with
  | Some stream =>
      forEach (getTracks stream) (fun track => emit (TrackStop track)) ;;
      modify (set_streamRef None)
  | None => ret tt
  end ;;
  modify (setShowCamera false).

(** *** capturePhoto

    What the browser answers during one capture: the video's dimensions,
    whether [canvas.getContext('2d')] is non-null, and the string
    [canvas.toDataURL('image/jpeg', 0.8)] returns. *)
Record CaptureEnv : Type := {
  videoWidth : nat;
  videoHeight : nat;
  getContext : bool;
  toDataURL : string
}.

Definition capturePhoto (env : CaptureEnv) : M State unit :=
  video <- gets videoRef ;;
  canvas <- gets canvasRef ;;
  match video, canvas with
  | Some _, Some _ =>
      modify (set_canvasRef
                (Some {| width := videoWidth env;
                         height := videoHeight env |})) ;;
      if getContext env then
        let imageData := toDataURL env in
        modify (setCapturedImage (Some imageData)) ;;
        stopCamera
      else ret tt
  | _, _ => ret tt
  end.

(** *** handleFileUpload

    [file] is [event.target.files?.[0]]. [loaded] is what the
    [FileReader] delivers for [readAsDataURL(file)]: [Some result] when
    its [onload] fires, [None] when the read fails and it never does. *)
Record File : Type := {
  name : string;
  type : string
}.

Definition handleFileUpload (file : option File) (loaded : option string)
  : M State unit :=
  match file with
  | Some f =>
      if startsWith "image/" (type f) then
        match loaded with
        | Some result => modify (setCapturedImage (Some result))
        | None => ret tt
        end
      else ret tt
  | None => ret tt
  end.

Definition prompt : string :=
  "Extract all table data from this coal log book image. Return the data in JSON format with 'headers' array and 'rows' array. Each row should be an array of cell values. Focus on coal-related data like date, shift, coal type, quantity, location, etc.".

Definition json_headers : list (string * string) :=
  [("Content-Type", "application/json")].

(** An optional string as a property value: absent is [undefined]
    ([JSON.stringify] then leaves the property out). *)
Definition opt_string (o : option string) : JSValue :=
  match o with
  | Some s => JStr s
  | None => JUndefined
  end.

(** The request [processImage] sends: [base64Data] is
    [capturedImage.split(',')[1]]. *)
Definition process_request (base64Data : option string) : Request :=
  {| url := "/api/process-table";
     method := "POST";
     http_headers := json_headers;
     body := JObj [ ("image", opt_string base64Data);
                    ("prompt", JStr prompt) ] |}.

Section Handlers.
Context {RT : Runtime}.

(** *** processImage *)
Definition processImage (net : Network) : M State unit :=
  image <- gets capturedImage ;;
  if negb (truthy_str image) then ret tt
  else
    let capturedImage := match image with Some i => i | None => "" end in
    modify (setIsProcessing true) ;;
    modify (setError None) ;;
    try_finally
      (try_catch
         (let base64Data := nth_error (split "," capturedImage) 1 in
          response <- fetch emit net (process_request base64Data) ;;
          if negb (ok response) then
            throw (Error "Failed to process image")
          else
            result <- json response ;;
            tableData <- lift (get_prop result "tableData") ;;
            modify (setExtractedData tableData))
         (fun err =>
            modify (setError
                      (Some "Failed to process image. Please try again.")) ;;
            emit (ConsoleError "Processing error:" err)))
      (modify (setIsProcessing false)).

(** *** downloadCSV

    [now] is [new Date().toISOString()]. The anchor element is created,
    clicked and removed within the handler; what remains is the
    download of the blob under the chosen file name. *)
Definition csv_of (data : JSValue) : Exn + string :=
  and_then (get_prop data "headers") (fun hs =>
  and_then (as_array hs) (fun hs =>
  and_then (join_values "," hs) (fun first =>
  and_then (get_prop data "rows") (fun rs =>
  and_then (as_array rs) (fun rs =>
  and_then (map_throwing
              (fun row => and_then (as_array row) (fun cells =>
                          join_values "," cells)) rs) (fun lines =>
  inr (join nl (first :: lines)))))))).

Definition downloadCSV (now : string) : M State unit :=
  data <- gets extractedData ;;
  if negb (truthy data) then ret tt
  else
    csvContent <- lift (csv_of data) ;;
    emit (Download ("coal-log-" ++ hd "" (split "T" now) ++ ".csv")
                   csvContent).

(** *** addToDatabase *)
Definition addToDatabase (net : Network) : M State unit :=
  data <- gets extractedData ;;
  if negb (truthy data) then ret tt
  else
    try_catch
      (response <-
         fetch emit net
           {| url := "/api/save-to-database";
              method := "POST";
              http_headers := json_headers;
              body := data |} ;;
       if ok response then emit (Alert "Data successfully added to database")
       else throw (Error "Failed to save to database"))
      (fun err =>
         modify (setError
                   (Some "Failed to save to database. Please try again."))).

(** *** resetApp *)
Definition resetApp : M State unit :=
  modify (setCapturedImage None) ;;
  modify (setExtractedData JNull) ;;
  modify (setError None) ;;
  stopCamera.

(** An event handler called by the browser: what it throws is reported
    as an uncaught error and the store keeps what was written. *)
Definition run_handler (h : M State unit) (s : State) : State :=
  match h s with
  | (s', inr _) => s'
  | (s', inl e) => add_effect (Uncaught e) s'
  end.

(** ** Rendering

    The only expressions of the returned markup that can throw are
    those under [extractedData && (...)]: [extractedData.headers.map],
    [extractedData.rows.map] and [row.map] need arrays, and a cell
    that is an object is refused as a child. *)
Fixpoint valid_child (v : JSValue) : bool :=
  match v with
  | JObj _ => false
  | JArr xs =>
      (fix all (l : list JSValue) : bool :=
         match l with
         | [] => true
         | x :: r => valid_child x && all r
         end) xs
  | _ => true
  end.

Definition render (s : State) : Exn + unit :=
  let data := extractedData s in
  if negb (truthy data) then inr tt
  else
    and_then (get_prop data "headers") (fun hs =>
    and_then (as_array hs) (fun hs =>
    and_then (get_prop data "rows") (fun rs =>
    and_then (as_array rs) (fun rs =>
    and_then (map_throwing as_array rs) (fun cells =>
    if forallb valid_child hs && forallb (forallb valid_child) cells
    then inr tt
    else inl (Error "Objects are not valid as a React child")))))).

(** After a render the refs follow the markup: the [<video>] element
    exists only under [showCamera &&], the [<canvas>] always. *)
Definition commit (s : State) : State :=
  set_canvasRef
    (match canvasRef s with
     | Some c => Some c
     | None => Some {| width := 300; height := 150 |}
     end)
    (set_videoRef
       (if showCamera s then
          match videoRef s with
          | Some v => Some v
          | None => Some {| srcObject := None |}
          end
        else None)
       s).

(** The component after its first render. *)
Definition mounted : State := commit initial.

(** ** User events *)
Inductive Event : Type :=
| TakePhoto (getUserMedia : Exn + MediaStream)
| UploadImage (file : option File) (loaded : option string)
| Capture (env : CaptureEnv)
| Cancel
| ExtractTableData (net : Network)
| StartOver
| DownloadCSV (now : string)
| AddToDatabase (net : Network).

Definition handler (ev : Event) : M State unit :=
  match ev with
  | TakePhoto r => startCamera r
  | UploadImage f l => handleFileUpload f l
  | Capture env => capturePhoto env
  | Cancel => stopCamera
  | ExtractTableData net => processImage net
  | StartOver => resetApp
  | DownloadCSV now => downloadCSV now
  | AddToDatabase net => addToDatabase net
  end.

(** Which control is on screen, from the conditions in the markup. *)
Definition enabled (ev : Event) (s : State) : bool :=
  match ev with
  | TakePhoto _ | UploadImage _ _ =>
      negb (truthy_str (capturedImage s)) && negb (showCamera s)
  | Capture _ | Cancel => showCamera s
  | ExtractTableData _ =>
      truthy_str (capturedImage s) && negb (isProcessing s)
  | StartOver => truthy_str (capturedImage s)
  | DownloadCSV _ | AddToDatabase _ => truthy (extractedData s)
  end.

(** One event: the handler runs, then the component re-renders. [None]
    when the control is not on screen or the render throws (the tree
    is unmounted and no further event can be delivered). *)
Definition dispatch (ev : Event) (s : State) : option State :=
  if enabled ev s then
    let s' := run_handler (handler ev) s in
    match render s' with
    | inr _ => Some (commit s')
    | inl _ => None
    end
  else None.

Fixpoint run (evs : list Event) (s : State) : option State :=
  match evs with
  | [] => Some s
  | ev :: rest =>
      match dispatch ev s with
      | Some s' => run rest s'
      | None => None
      end
  end.

(** States the user can bring the mounted component to. *)
Definition reachable (s : State) : Prop :=
  exists evs, run evs mounted = Some s.

(** How often [track.stop()] was called on [t]. *)
Definition is_stop_of (t : Track) (e : Effect) : bool :=
  match e with
  | TrackStop t' => Nat.eqb t t'
  | _ => false
  end.

Definition stop_count (t : Track) (s : State) : nat :=
  List.length (filter (is_stop_of t) (effects s)).
End Handlers.

End App.

(* ================================================================== *)
(** * The direct client: [processTableImage]                           *)
(* ================================================================== *)

Module GeminiClient.
Import JS Ctl.
Open Scope js_scope.

(** The function owns no state; its store is the effect log alone. *)
Definition World : Type := list Effect.

Definition emit (e : Effect) : M World unit :=
  modify (fun log => log ++ [e]).

Definition endpoint : string :=
  "https://generativelanguage.googleapis.com/v1beta/models/gemini-1.5-flash:generateContent?key=".

Definition key_file_request : Request :=
  {| url := "/.api_key"; method := "GET"; http_headers := [];
     body := JUndefined |}.

Definition gemini_request (apiKey imageBase64 prompt : string) : Request :=
  {| url := endpoint ++ apiKey;
     method := "POST";
     http_headers := [("Content-Type", "application/json")];
     body :=
       JObj [ ("contents",
               JArr [ JObj [ ("parts",
                 JArr [ JObj [ ("text", JStr prompt) ];
                        JObj [ ("inline_data",
                                JObj [ ("mime_type", JStr "image/jpeg");
                                       ("data", JStr imageBase64) ]) ] ]) ] ]) ]
  |}.

(** [result.candidates[0].content.parts[0].text] *)
Definition candidate_text (result : JSValue) : Exn + JSValue :=
  and_then (get_prop result "candidates") (fun candidates =>
  and_then (get_index candidates 0) (fun candidate =>
  and_then (get_prop candidate "content") (fun content =>
  and_then (get_prop content "parts") (fun parts =>
  and_then (get_index parts 0) (fun part =>
  get_prop part "text"))))).

Section Client.
Context {RT : Runtime}.

Definition processTableImage (net : Network) (imageBase64 prompt : string)
  : M World JSValue :=
  try_catch
    (response <- fetch emit net key_file_request ;;
     let apiKeyContent := text response in
     let apiKeyMatch := match_literal_dots "GEMINI_API_KEY=" apiKeyContent in
     match apiKeyMatch with
     | None => throw (Error "Gemini API key not found in .api_key file")
     | Some group1 =>
         let apiKey := trim group1 in
         geminiResponse <-
           fetch emit net (gemini_request apiKey imageBase64 prompt) ;;
         if negb (ok geminiResponse) then
           throw (Error "Failed to process image with Gemini API")
         else
           result <- json geminiResponse ;;
           content <- lift (candidate_text result) ;;
           tableData <- lift (JSON_parse_value content) ;;
           ret (JObj [ ("tableData", tableData) ])
     end)
    (fun error =>
       emit (ConsoleError "Error processing image:" error) ;;
       throw error).
End Client.

End GeminiClient.

(* ================================================================== *)
(** * Reference definitions the properties are stated against *)
(* ================================================================== *)

Module Ref.
Import JS Ctl App.

(** ** CSV text *)

(** What [join] appends once the first element is in the accumulator. *)
Fixpoint tail_of (sep : string) (xs : list string) : string :=
  match xs with
  | [] => ""
  | x :: rest => (sep ++ x ++ tail_of sep rest)%string
  end.

(** CSV text as the specification words it: the headers joined with
    commas, each row joined with commas, the lines joined with newlines,
    every cell copied as it is. *)
Definition csv_lines (t : TableData) : list string :=
  String.concat "," (headers t) :: map (String.concat ",") (rows t).

Definition csv_text (t : TableData) : string :=
  String.concat nl (csv_lines t).

(** The file name of the download for a given [toISOString()] value. *)
Definition csv_filename (now : string) : string :=
  ("coal-log-" ++ hd "" (split "T" now) ++ ".csv")%string.

(** The table of the specification's example. *)
Definition table_AB : TableData :=
  {| headers := ["A"; "B"]; rows := [["1"; "2"]; ["3"; "4"]] |}.

(** A table whose cells contain a comma and a newline. *)
Definition table_embedded : TableData :=
  {| headers := ["a,b"]; rows := [[("x" ++ nl ++ "y")%string]] |}.

(** ** The camera stream *)

(** The tracks of the stream [streamRef.current] holds, if any. *)
Definition active_tracks (s : State) : list Track :=
  match streamRef s with
  | Some stream => getTracks stream
  | None => []
  end.

(** The state with several effects appended to the log. *)
Definition add_effects (es : list Effect) (s : State) : State :=
  mkState (capturedImage s) (isProcessing s) (extractedData s) (error s)
          (showCamera s) (videoRef s) (canvasRef s) (streamRef s)
          (effects s ++ es).

(** The camera view is hidden and its [<video>] element does not
    exist. *)
Definition camera_hidden (s : State) : Prop :=
  showCamera s = false /\ videoRef s = None.

(** The track [t] has not been stopped and is not a track of the stream
    [streamRef.current] holds: nothing the component can still reach
    refers to it. *)
Definition out_of_reach (t : Track) (s : State) : Prop :=
  ~ In (TrackStop t) (effects s) /\ ~ In t (active_tracks s).

(** The event brings in a stream that has the track [t]. *)
Definition grants_track (t : Track) (ev : Event) : Prop :=
  match ev with
  | TakePhoto (inr stream) => In t (getTracks stream)
  | _ => False
  end.

(** ** Extraction outcomes *)

(** The text of the banner after a handled extraction failure. *)
Definition generic_error : string :=
  "Failed to process image. Please try again.".

(** The handled path of [processImage]: the banner shows the generic
    text. *)
Definition handled_generically (s : State) : Prop :=
  error s = Some generic_error.

(** An unhandled runtime error: a handler let an exception escape, or
    the next render throws. *)
Definition surfaces_unhandled (s : State) : Prop :=
  (exists e, In (Uncaught e) (effects s)) \/ (exists e, render s = inl e).

Definition is_array (v : JSValue) : bool :=
  match v with
  | JArr _ => true
  | _ => false
  end.

(** The arrays the markup maps over: [headers], [rows] and every row. *)
Definition has_arrays (data : JSValue) : bool :=
  match get_prop data "headers", get_prop data "rows" with
  | inr (JArr _), inr (JArr rs) => forallb is_array rs
  | _, _ => false
  end.

(** ** Lines of the key file *)

(** A string with no line terminator in it. *)
Fixpoint single_line (v : string) : bool :=
  match v with
  | EmptyString => true
  | String c rest => negb (is_line_terminator c) && single_line rest
  end.

(** The end of a line: the end of the text or a line terminator. *)
Definition line_end (rest : string) : bool :=
  match rest with
  | EmptyString => true
  | String c _ => is_line_terminator c
  end.

(** ** Sample inputs *)

(** The table of the development server's canned response. *)
Definition mock_table : TableData :=
  {| headers := ["Date"; "Shift"; "Coal Type"; "Quantity (tons)"; "Location";
                 "Quality Grade"];
     rows := [ ["2024-01-15"; "Day"; "Bituminous"; "250"; "Pit A"; "Grade 1"];
               ["2024-01-15"; "Night"; "Anthracite"; "180"; "Pit B"; "Grade 2"];
               ["2024-01-16"; "Day"; "Bituminous"; "320"; "Pit A"; "Grade 1"] ]
  |}.

(** JSON text of a table whose cells need no escaping, as
    [JSON.stringify({ tableData })] writes it. *)
Definition quoted (s : string) : string :=
  (String "034" s ++ String "034" EmptyString)%string.

Definition json_array (items : list string) : string :=
  ("[" ++ String.concat "," items ++ "]")%string.

Definition stringify_TableData (t : TableData) : string :=
  ("{" ++ quoted "headers" ++ ":" ++ json_array (map quoted (headers t)) ++ ","
       ++ quoted "rows" ++ ":"
       ++ json_array (map (fun row => json_array (map quoted row)) (rows t))
       ++ "}")%string.

Definition stringify_table (t : TableData) : string :=
  ("{" ++ quoted "tableData" ++ ":" ++ stringify_TableData t ++ "}")%string.

(** A JSON string literal for a text whose only characters in need of
    escaping are quotes. *)
Fixpoint escape_quotes (s : string) : string :=
  match s with
  | EmptyString => EmptyString
  | String c rest =>
      if Ascii.eqb c "034" then String "092" (String "034" (escape_quotes rest))
      else String c (escape_quotes rest)
  end.

Definition mock_body : string := stringify_table mock_table.

(** A key file, and a model answer whose text is the table A, B as
    JSON. *)
Definition key_file_text : string :=
  ("# local settings" ++ nl ++ "GEMINI_API_KEY= abc123 " ++ nl)%string.

Definition answer_text : string := stringify_TableData table_AB.

Definition answer_value : JSValue :=
  JObj [ ("candidates",
          JArr [ JObj [ ("content",
            JObj [ ("parts", JArr [ JObj [ ("text", JStr answer_text) ] ]) ]) ] ]) ].

Definition answer_body : string :=
  ("{" ++ quoted "candidates" ++ ":[{" ++ quoted "content" ++ ":{"
       ++ quoted "parts" ++ ":[{" ++ quoted "text" ++ ":"
       ++ quoted (escape_quotes answer_text) ++ "}]}}]}")%string.

(** A response body whose table has headers and no rows. *)
Definition rowless_body : string :=
  ("{" ++ quoted "tableData" ++ ":{" ++ quoted "headers" ++ ":["
       ++ quoted "A" ++ "]}}")%string.

Definition rowless_table : JSValue := JObj [ ("headers", JArr [JStr "A"]) ].

(** A runtime that reads the sample texts above and refuses every other
    text; no number occurs in them. It instantiates the theorems at
    concrete inputs. *)
Definition sample_parse (s : string) : option JSValue :=
  if (s =? mock_body)%string
  then Some (JObj [ ("tableData", of_TableData mock_table) ])
  else if (s =? answer_body)%string then Some answer_value
  else if (s =? answer_text)%string then Some (of_TableData table_AB)
  else if (s =? rowless_body)%string
  then Some (JObj [ ("tableData", rowless_table) ])
  else None.

Definition sample_runtime : Runtime :=
  {| JSON_parse := sample_parse; Number_toString := fun _ => "0" |}.

(** The development server: every request is answered 200 with the
    canned body. *)
Definition mock_server : Network :=
  fun _ => Some {| status := 200; text := mock_body |}.

(** A server that answers every request with status 500. *)
Definition failing_server : Network :=
  fun _ => Some {| status := 500; text := "Internal Server Error" |}.

(** A gateway answering 200 with an HTML page. *)
Definition html_response : Response :=
  {| status := 200; text := "<html>Bad gateway</html>" |}.

Definition html_server : Network := fun _ => Some html_response.

Definition rowless_server : Network :=
  fun _ => Some {| status := 200; text := rowless_body |}.

(** A network that serves the key file and answers every other request
    with the model answer. *)
Definition gemini_network : Network :=
  fun req =>
    if (url req =? "/.api_key")%string
    then Some {| status := 200; text := key_file_text |}
    else Some {| status := 200; text := answer_body |}.

(** A state with a captured image, as after an upload. *)
Definition with_image : State :=
  setCapturedImage (Some "data:image/jpeg;base64,AAAA") mounted.

Definition png_file : File := {| name := "log.png"; type := "image/png" |}.

Definition pdf_file : File :=
  {| name := "log.pdf"; type := "application/pdf" |}.

(** Two camera streams with one video track each. *)
Definition first_stream : MediaStream := {| getTracks := [1] |}.
Definition second_stream : MediaStream := {| getTracks := [2] |}.

(** Take Photo pressed twice, each request granted, then an upload and
    Start Over. *)
Definition leak_trace : list Event :=
  [ TakePhoto (inr first_stream);
    TakePhoto (inr second_stream);
    UploadImage (Some png_file) (Some "data:image/png;base64,AAAA");
    StartOver ].

(** The state [leak_trace] ends in. *)
Definition leak_final : State :=
  {| capturedImage := None;
     isProcessing := false;
     extractedData := JNull;
     error := None;
     showCamera := false;
     videoRef := None;
     canvasRef := Some {| width := 300; height := 150 |};
     streamRef := None;
     effects := [ Acquired first_stream; Acquired second_stream;
                  TrackStop 2 ] |}.

(** ** Reading a value along a path *)

(** One step of a member expression: [.name] or [[i]]. *)
Inductive Accessor : Type :=
| Key (name : string)
| Index (i : nat).

(** The value a chain of member accesses reads, or the exception of the
    first access that throws. *)
Fixpoint follow (path : list Accessor) (v : JSValue) : Exn + JSValue :=
  match path with
  | [] => inr v
  | Key name :: rest => and_then (get_prop v name) (follow rest)
  | Index i :: rest => and_then (get_index v i) (follow rest)
  end.

(** ** Values that convert to strings *)

(** The value has a string conversion: no object with an own property
    named toString is met, at any depth of nested arrays. *)
Fixpoint converts (v : JSValue) : bool :=
  match v with
  | JObj fields =>
      match lookup_field "toString" fields with
      | Some _ => false
      | None => true
      end
  | JArr xs =>
      (fix all (l : list JSValue) : bool :=
         match l with
         | [] => true
         | x :: r => converts x && all r
         end) xs
  | _ => true
  end.

(** The data [downloadCSV] can export: [headers], [rows] and every row
    are arrays, and every cell converts to a string. *)
Definition exportable (data : JSValue) : bool :=
  match get_prop data "headers", get_prop data "rows" with
  | inr (JArr hs), inr (JArr rs) =>
      forallb converts hs
      && forallb (fun row => match row with
                             | JArr cells => forallb converts cells
                             | _ => false
                             end) rs
  | _, _ => false
  end.

(** ** Reading CSV text back *)

(** The character [c] occurs in [s]. *)
Fixpoint has_char (c : ascii) (s : string) : bool :=
  match s with
  | EmptyString => false
  | String a rest => Ascii.eqb a c || has_char c rest
  end.

(** A cell the export copies without ambiguity: no comma, no newline. *)
Definition plain_cell (cell : string) : bool :=
  negb (has_char "," cell) && negb (has_char LF cell).

(** The naive reader: lines at newlines, cells at commas. *)
Definition parse_csv (text : string) : list (list string) :=
  map (split ",") (split LF text).

(** ** Runs of user events *)

(** The tracks of the streams the browser hands over during a run. *)
Fixpoint granted_tracks (evs : list Event) : list Track :=
  match evs with
  | [] => []
  | TakePhoto (inr stream) :: rest => getTracks stream ++ granted_tracks rest
  | _ :: rest => granted_tracks rest
  end.

(** The tracks one event brings in. *)
Definition grant_of (ev : Event) : list Track :=
  match ev with
  | TakePhoto (inr stream) => getTracks stream
  | _ => []
  end.

Definition is_fetch (e : Effect) : bool :=
  match e with
  | Fetch _ => true
  | _ => false
  end.

(** A non-empty run of white space within one line. *)
Fixpoint blank (v : string) : bool :=
  match v with
  | EmptyString => true
  | String c rest =>
      is_trim_space c && negb (is_line_terminator c) && blank rest
  end.

(** A network on which every request is rejected, and one whose key file
    holds the key name followed by three spaces. *)
Definition dead_network : Network := fun _ => None.

Definition blank_key_network : Network :=
  fun req =>
    if (url req =? "/.api_key")%string
    then Some {| status := 200;
                 text := ("GEMINI_API_KEY=   " ++ nl)%string |}
    else None.

(** A table whose only header cell is an object with an own property
    named toString. *)
Definition unprintable_table : JSValue :=
  JObj [ ("headers", JArr [ JObj [ ("toString", JNum 1) ] ]);
         ("rows", JArr []) ].

(** The two buttons of the camera view. *)
Definition camera_control (ev : Event) : bool :=
  match ev with
  | Capture _ | Cancel => true
  | _ => false
  end.

End Ref.

(* ================================================================== *)
(** * [processImage] across its [await] *)
(* ================================================================== *)

(** [processImage] is an [async] function: it runs up to
    [await fetch(...)], returns to the event loop, and is resumed with
    the outcome of the request. Other handlers can run in between; the
    resumed part works on the state as it is then. The two parts are
    given separately here; run back to back they are [App.processImage]. *)
Module Async.
Import JS Ctl App.
Open Scope js_scope.

Section Parts.
Context {RT : Runtime}.

(** Up to the [await]: the guard, the two state updates and the request
    being issued. The result is the request in flight, if any. *)
Definition processImage_begin : M State (option Request) :=
  image <- gets capturedImage ;;
  if negb (truthy_str image) then ret None
  else
    let capturedImage := match image with Some i => i | None => "" end in
    modify (setIsProcessing true) ;;
    modify (setError None) ;;
    let base64Data := nth_error (split "," capturedImage) 1 in
    emit (Fetch (process_request base64Data)) ;;
    ret (Some (process_request base64Data)).

(** From the [await] on: [outcome] is the resolution of the request
    ([None] when it is rejected). *)
Definition processImage_resume (outcome : option Response) : M State unit :=
  try_finally
    (try_catch
       (response <- match outcome with
                    | Some r => ret r
                    | None => throw TypeError
                    end ;;
        if negb (ok response) then
          throw (Error "Failed to process image")
        else
          result <- json response ;;
          tableData <- lift (get_prop result "tableData") ;;
          modify (setExtractedData tableData))
       (fun err =>
          modify (setError
                    (Some "Failed to process image. Please try again.")) ;;
          emit (ConsoleError "Processing error:" err)))
    (modify (setIsProcessing false)).

(** The state the component is in while the request is in flight. *)
Definition in_flight (s : State) : State := fst (processImage_begin s).
End Parts.

End Async.

(* ================================================================== *)
(** * Properties *)
(* ================================================================== *)

Import JS Ctl App Ref.

(** Unfolding of the handlers down to the operations of the monad, and
    case analysis on every test a handler makes, innermost first. *)
Ltac unfold_handlers :=
  unfold run_handler, handler, startCamera, capturePhoto, handleFileUpload,
    processImage, downloadCSV, addToDatabase, resetApp,
    try_finally, try_catch, fetch, json, bind, emit, gets, lift, modify,
    throw, ret.

Ltac unfold_client :=
  unfold GeminiClient.processTableImage, try_catch, fetch, json, bind,
    GeminiClient.emit, lift, modify, throw, ret.

Ltac split_cases :=
  repeat (cbv beta iota;
          match goal with
          | |- context [match ?x with _ => _ end] =>
              lazymatch x with
              | context [match _ with _ => _ end] => fail
              | _ => destruct x eqn:?
              end
          end);
  cbv beta iota.

Ltac close_out_of_reach :=
  unfold out_of_reach, active_tracks, add_effect, setCapturedImage,
    setIsProcessing, setExtractedData, setError, setShowCamera, set_videoRef,
    set_canvasRef, set_streamRef in *;
  cbn [effects streamRef fst snd] in *;
  rewrite ?in_app_iff; cbn [In];
  intuition (try discriminate; try congruence).

(** ** Strings *)

Lemma append_assoc (a b c : string) : ((a ++ b) ++ c = a ++ (b ++ c))%string.
Proof.
  induction a as [|ch a IH]; simpl.
  - reflexivity.
  - now rewrite IH.
Qed.

Lemma append_empty_r (a : string) : (a ++ "" = a)%string.
Proof.
  induction a as [|ch a IH]; simpl.
  - reflexivity.
  - now rewrite IH.
Qed.

Lemma join_loop_rest (sep : string) (xs : list string) (acc : string) :
  snd (fold_left (join_step sep) xs (false, acc))
  = (acc ++ tail_of sep xs)%string.
Proof.
  revert acc. induction xs as [|x xs IH]; intros acc; simpl.
  - now rewrite append_empty_r.
  - rewrite IH. now rewrite !append_assoc.
Qed.

Lemma concat_cons_tail (sep x : string) (xs : list string) :
  String.concat sep (x :: xs) = (x ++ tail_of sep xs)%string.
Proof.
  revert x. induction xs as [|y ys IH]; intros x.
  - simpl. now rewrite append_empty_r.
  - change (String.concat sep (x :: y :: ys))
      with (x ++ sep ++ String.concat sep (y :: ys))%string.
    rewrite IH. reflexivity.
Qed.

(** The loop of [Array.prototype.join] computes the separated
    concatenation. *)
Lemma join_concat (sep : string) (xs : list string) :
  join sep xs = String.concat sep xs.
Proof.
  destruct xs as [|x xs].
  - reflexivity.
  - unfold join. simpl fold_left. rewrite join_loop_rest.
    now rewrite concat_cons_tail.
Qed.

(** ** The key file pattern *)

Lemma strip_prefix_app (lit x : string) :
  strip_prefix lit (lit ++ x)%string = Some x.
Proof.
  induction lit as [|c lit IH]; cbn.
  - reflexivity.
  - now rewrite Ascii.eqb_refl.
Qed.

Lemma dot_run_line (v rest : string) :
  single_line v = true -> line_end rest = true ->
  dot_run (v ++ rest)%string = v.
Proof.
  induction v as [|c v IH]; cbn; intros Hv Hrest.
  - destruct rest as [|c rest]; cbn in *; [reflexivity|now rewrite Hrest].
  - apply andb_true_iff in Hv as [Hc Hv].
    apply negb_true_iff in Hc. rewrite Hc. now rewrite IH.
Qed.

(** A line that starts the text with the key name gives the rest of the
    line as the captured group. *)
Lemma match_literal_dots_line (lit v rest : string) :
  v <> EmptyString -> single_line v = true -> line_end rest = true ->
  match_literal_dots lit (lit ++ v ++ rest)%string = Some v.
Proof.
  intros Hne Hv Hrest.
  assert (H : match_here lit (lit ++ v ++ rest)%string = Some v).
  { unfold match_here. rewrite strip_prefix_app, dot_run_line by assumption.
    destruct v; [contradiction|reflexivity]. }
  destruct (lit ++ v ++ rest)%string; cbn [match_literal_dots]; now rewrite H.
Qed.

(** Wherever the key name is followed by a character that is not a line
    terminator, the pattern matches: a text on which it does not match
    has no such place. *)
Lemma match_literal_dots_complete (lit pre : string) (c : ascii) (rest : string) :
  is_line_terminator c = false ->
  exists cap,
    match_literal_dots lit (pre ++ lit ++ String c rest)%string = Some cap.
Proof.
  intros Hc.
  assert (Hhere : exists cap,
             match_here lit (lit ++ String c rest)%string = Some cap).
  { unfold match_here. rewrite strip_prefix_app. cbn [dot_run]. rewrite Hc.
    eauto. }
  induction pre as [|a pre IH].
  - destruct Hhere as [cap Hcap]. exists cap.
    change (EmptyString ++ lit ++ String c rest)%string
      with (lit ++ String c rest)%string.
    destruct (lit ++ String c rest)%string; cbn [match_literal_dots];
      now rewrite Hcap.
  - cbn [append match_literal_dots].
    destruct (match_here lit (String a (pre ++ lit ++ String c rest)))
      as [cap|]; eauto.
Qed.

(** ** CSV export *)

Section CSV.
Context {RT : Runtime}.

Lemma strings_convert (xs : list string) :
  map_throwing join_element (map JStr xs) = inr xs.
Proof.
  induction xs as [|x xs IH]; cbn [map map_throwing join_element ToString].
  - reflexivity.
  - now rewrite IH.
Qed.

Lemma join_values_strings (sep : string) (xs : list string) :
  join_values sep (map JStr xs) = inr (String.concat sep xs).
Proof.
  unfold join_values. rewrite strings_convert. cbn [and_then].
  now rewrite join_concat.
Qed.

Lemma row_lines (rs : list (list string)) :
  map_throwing
    (fun row => and_then (as_array row)
                  (fun cells => join_values "," cells))
    (map (fun row => JArr (map JStr row)) rs)
  = inr (map (String.concat ",") rs).
Proof.
  induction rs as [|r rs IH]; cbn [map map_throwing as_array and_then].
  - reflexivity.
  - rewrite join_values_strings, IH. reflexivity.
Qed.

Lemma csv_of_TableData (t : TableData) :
  csv_of (of_TableData t) = inr (csv_text t).
Proof.
  unfold csv_of.
  change (get_prop (of_TableData t) "headers")
    with (@inr Exn JSValue (JArr (map JStr (headers t)))).
  change (get_prop (of_TableData t) "rows")
    with (@inr Exn JSValue
            (JArr (map (fun row => JArr (map JStr row)) (rows t)))).
  cbn [and_then as_array].
  rewrite join_values_strings. cbn [and_then].
  rewrite row_lines. cbn [and_then].
  now rewrite join_concat.
Qed.

Lemma downloadCSV_TableData (now : string) (t : TableData) (s : State) :
  run_handler (downloadCSV now) (setExtractedData (of_TableData t) s)
  = add_effect (Download (csv_filename now) (csv_text t))
               (setExtractedData (of_TableData t) s).
Proof.
  unfold run_handler, downloadCSV, bind, gets, lift, emit, modify.
  cbn [extractedData setExtractedData].
  change (truthy (of_TableData t)) with true. cbn [negb].
  rewrite csv_of_TableData. reflexivity.
Qed.

(** C1. CSV export. For the table with headers A, B and rows (1,2), (3,4)
    [downloadCSV] offers exactly the text A,B / 1,2 / 3,4 (lines separated
    by one newline) for download; for every [TableData] the text is the
    headers joined with commas, then each row joined with commas, the
    lines joined with newlines; cells are copied without quoting or
    escaping, so a cell holding a comma or a newline appears as it is. *)
Theorem downloadCSV_joins_with_commas_and_newlines :
  forall (now : string) (s : State),
    run_handler (downloadCSV now) (setExtractedData (of_TableData table_AB) s)
    = add_effect
        (Download (csv_filename now) ("A,B" ++ nl ++ "1,2" ++ nl ++ "3,4")%string)
        (setExtractedData (of_TableData table_AB) s)
    /\ (forall t : TableData,
          run_handler (downloadCSV now) (setExtractedData (of_TableData t) s)
          = add_effect (Download (csv_filename now) (csv_text t))
                       (setExtractedData (of_TableData t) s))
    /\ csv_text table_embedded = ("a,b" ++ nl ++ "x" ++ nl ++ "y")%string.
Proof.
  intros now s. split; [|split].
  - rewrite downloadCSV_TableData. reflexivity.
  - intros t. apply downloadCSV_TableData.
  - reflexivity.
Qed.
End CSV.

(** ** The camera stream *)

Lemma forEach_stop (ts : list Track) (s : State) :
  forEach ts (fun track => emit (TrackStop track)) s
  = (add_effects (map TrackStop ts) s, inr tt).
Proof.
  revert s. induction ts as [|t ts IH]; intros s.
  - destruct s; unfold add_effects; simpl. now rewrite app_nil_r.
  - cbn [forEach map]. unfold bind at 1. unfold emit at 1, modify at 1.
    rewrite IH. destruct s; unfold add_effects, add_effect; simpl.
    now rewrite <- app_assoc.
Qed.

(** [stopCamera] never throws; it stops each track of the held stream
    once, drops the stream and hides the camera view. *)
Lemma stopCamera_run (s : State) :
  stopCamera s
  = (mkState (capturedImage s) (isProcessing s) (extractedData s) (error s)
             false (videoRef s) (canvasRef s) None
             (effects s ++ map TrackStop (active_tracks s)),
     inr tt).
Proof.
  unfold stopCamera, active_tracks, bind at 1, gets.
  destruct s as [ci ip ed er sc vr cr [stream|] ef]; cbn [streamRef].
  - unfold bind. rewrite forEach_stop. reflexivity.
  - unfold bind, ret, modify, setShowCamera; simpl. now rewrite app_nil_r.
Qed.

(** C10. [stopCamera] is idempotent: after one call the stream reference
    is null and the camera view is hidden, and a second call from that
    state changes nothing, the effect log included, so it stops no
    track. *)
Theorem stopCamera_idempotent :
  forall s : State,
    let s1 := run_handler stopCamera s in
    streamRef s1 = None
    /\ showCamera s1 = false
    /\ run_handler stopCamera s1 = s1
    /\ effects (run_handler stopCamera s1) = effects s1.
Proof.
  intros s. cbv zeta. unfold run_handler.
  rewrite stopCamera_run. rewrite stopCamera_run.
  cbn [streamRef showCamera effects capturedImage isProcessing extractedData
       error videoRef canvasRef active_tracks map].
  rewrite app_nil_r. repeat split.
Qed.

(** C5. Reset. From every state [resetApp] leaves the captured image,
    the extracted data and the error message null, the stream reference
    null and the camera view hidden; the tracks of the stream that was
    active, if any, are each stopped once, and nothing else is done. *)
Theorem resetApp_clears_everything :
  forall s : State,
    let s' := run_handler resetApp s in
    capturedImage s' = None
    /\ extractedData s' = JNull
    /\ error s' = None
    /\ streamRef s' = None
    /\ showCamera s' = false
    /\ effects s' = effects s ++ map TrackStop (active_tracks s).
Proof.
  intros s. cbv zeta. unfold run_handler, resetApp.
  unfold bind, modify. rewrite stopCamera_run.
  repeat split.
Qed.

Lemma stops_of_tracks (t : Track) (ts : list Track) :
  List.length (filter (is_stop_of t) (map TrackStop ts))
  = count_occ Nat.eq_dec ts t.
Proof.
  induction ts as [|t' ts IH]; cbn [map filter is_stop_of count_occ].
  - reflexivity.
  - destruct (Nat.eq_dec t' t) as [->|Hne].
    + rewrite Nat.eqb_refl. cbn. now rewrite IH.
    + destruct (Nat.eqb_spec t t') as [->|_]; [contradiction|exact IH].
Qed.

Lemma stop_count_after_stopCamera (t : Track) (s : State) :
  stop_count t (fst (stopCamera s))
  = stop_count t s + count_occ Nat.eq_dec (active_tracks s) t.
Proof.
  rewrite stopCamera_run. unfold stop_count. cbn [fst effects].
  now rewrite filter_app, length_app, stops_of_tracks.
Qed.

(** The stream held in [streamRef.current] is released by each of the
    three exit paths: every track of it that was running is stopped
    exactly once. *)
Lemma exit_paths_stop_held_stream_once
      (s : State) (stream : MediaStream) (t : Track) :
  streamRef s = Some stream ->
  NoDup (getTracks stream) ->
  In t (getTracks stream) ->
  stop_count t s = 0 ->
  stop_count t (run_handler stopCamera s) = 1
  /\ stop_count t (run_handler resetApp s) = 1
  /\ (forall (env : CaptureEnv) (video : VideoElement) (canvas : Canvas),
         videoRef s = Some video -> canvasRef s = Some canvas ->
         getContext env = true ->
         stop_count t (run_handler (capturePhoto env) s) = 1).
Proof.
  intros Href Hnodup Hin Hzero.
  assert (Hone : count_occ Nat.eq_dec (getTracks stream) t = 1).
  { now apply NoDup_count_occ'. }
  assert (Hstop : forall s0 : State,
             streamRef s0 = Some stream -> effects s0 = effects s ->
             stop_count t (fst (stopCamera s0)) = 1).
  { intros s0 Href0 Heff. rewrite stop_count_after_stopCamera.
    unfold active_tracks. rewrite Href0, Hone.
    unfold stop_count in *. now rewrite Heff, Hzero. }
  split; [|split].
  - unfold run_handler. specialize (Hstop s Href eq_refl).
    rewrite stopCamera_run in *. exact Hstop.
  - unfold run_handler, resetApp, bind, modify.
    specialize (Hstop (setError None
                         (setExtractedData JNull (setCapturedImage None s)))
                      Href eq_refl).
    rewrite stopCamera_run in *. exact Hstop.
  - intros env video canvas Hv Hc Hctx.
    unfold run_handler, capturePhoto, bind, gets, modify.
    rewrite Hv, Hc, Hctx.
    match goal with
    | |- context [stopCamera ?s0] => specialize (Hstop s0 Href eq_refl)
    end.
    rewrite stopCamera_run in *. exact Hstop.
Qed.

(** The lemma at the mounted component holding the first sample
    stream. *)
Lemma exit_paths_witness :
  stop_count 1 (run_handler stopCamera
                  (set_streamRef (Some first_stream) mounted)) = 1
  /\ stop_count 1 (run_handler resetApp
                     (set_streamRef (Some first_stream) mounted)) = 1.
Proof.
  pose proof (@exit_paths_stop_held_stream_once
                (set_streamRef (Some first_stream) mounted) first_stream 1
                eq_refl
                (NoDup_cons 1 (fun H : In 1 [] => H) (NoDup_nil nat))
                (or_introl eq_refl) eq_refl) as H.
  exact (conj (proj1 H) (proj1 (proj2 H))).
Defined.

(** ** Camera access denied *)

(** C6. When the camera request of [startCamera] is rejected, the error
    message is set to a non-empty text and nothing else changes: the
    camera view keeps its visibility (hidden in the pre-capture state),
    and the captured image, the extracted data, the stream reference and
    the effect log are as before. *)
Theorem startCamera_denied :
  forall (s : State) (reason : Exn),
    let s' := run_handler (startCamera (inl reason)) s in
    error s' = Some "Unable to access camera. Please check permissions."
    /\ truthy_str (error s') = true
    /\ showCamera s' = showCamera s
    /\ capturedImage s' = capturedImage s
    /\ extractedData s' = extractedData s
    /\ streamRef s' = streamRef s
    /\ effects s' = effects s.
Proof.
  intros s reason. cbv zeta. repeat split.
Qed.

(** ** Upload *)

Lemma capturePhoto_stores_data_url (env : CaptureEnv) (s : State)
      (video : VideoElement) (canvas : Canvas) :
  videoRef s = Some video ->
  canvasRef s = Some canvas ->
  getContext env = true ->
  capturedImage (run_handler (capturePhoto env) s) = Some (toDataURL env).
Proof.
  intros Hv Hc Hctx. unfold run_handler, capturePhoto.
  unfold bind at 1, gets at 1. unfold bind at 1, gets at 1.
  rewrite Hv, Hc. unfold bind at 1, modify at 1. rewrite Hctx.
  unfold bind, modify. rewrite stopCamera_run. reflexivity.
Qed.

(** C7. Upload. A selected file whose MIME type does not start with
    image/ is dropped silently: the state, the error message and the
    effect log included, is unchanged. A file whose type starts with
    image/ has the data URL its reader delivers stored as the captured
    image, the cell in which camera capture stores the data URL of the
    canvas, and nothing else changes. *)
Theorem handleFileUpload_filters_by_mime_type :
  forall (s : State) (f : File) (loaded : option string),
    (startsWith "image/" (type f) = false ->
     run_handler (handleFileUpload (Some f) loaded) s = s)
    /\ (startsWith "image/" (type f) = true ->
        forall result : string,
          run_handler (handleFileUpload (Some f) (Some result)) s
          = setCapturedImage (Some result) s)
    /\ (forall (env : CaptureEnv) (video : VideoElement) (canvas : Canvas),
          videoRef s = Some video -> canvasRef s = Some canvas ->
          getContext env = true ->
          capturedImage (run_handler (capturePhoto env) s)
          = Some (toDataURL env)).
Proof.
  intros s f loaded. split; [|split].
  - intros H. unfold run_handler, handleFileUpload. now rewrite H.
  - intros H result. unfold run_handler, handleFileUpload. now rewrite H.
  - intros env video canvas. apply capturePhoto_stores_data_url.
Qed.

(** The upload theorem at a PDF, which is dropped, and at a PNG, which is
    stored. *)
Lemma handleFileUpload_witness :
  run_handler (handleFileUpload (Some pdf_file)
                 (Some "data:application/pdf;base64,AAAA")) mounted
  = mounted
  /\ run_handler (handleFileUpload (Some png_file)
                    (Some "data:image/png;base64,AAAA")) mounted
     = setCapturedImage (Some "data:image/png;base64,AAAA") mounted.
Proof.
  split.
  - exact (proj1 (handleFileUpload_filters_by_mime_type mounted pdf_file
                    (Some "data:application/pdf;base64,AAAA")) eq_refl).
  - exact (proj1 (proj2 (handleFileUpload_filters_by_mime_type mounted png_file
                           None)) eq_refl "data:image/png;base64,AAAA").
Defined.

(** ** Extraction through the backend *)

Section Extraction.
Context {RT : Runtime}.

(** C2. Failed extraction. With a captured image present, when the
    request is rejected or the response has a non-success status,
    [processImage] ends with the error message set to a non-empty text,
    [extractedData] as it was before the call (so still null if it was
    null), the image kept and the processing flag cleared. *)
Theorem processImage_failure_keeps_extractedData :
  forall (s : State) (img : string) (net : Network),
    capturedImage s = Some img ->
    truthy_str (Some img) = true ->
    match net (process_request (nth_error (split "," img) 1)) with
    | Some response => ok response = false
    | None => True
    end ->
    let s' := run_handler (processImage net) s in
    error s' = Some "Failed to process image. Please try again."
    /\ truthy_str (error s') = true
    /\ extractedData s' = extractedData s
    /\ capturedImage s' = capturedImage s
    /\ isProcessing s' = false.
Proof.
  intros s img net Himg Htruthy Hnet. cbv zeta.
  unfold run_handler, processImage, try_finally, try_catch, fetch, json,
    bind, emit, gets, lift, modify, throw, ret.
  cbv beta. rewrite Himg, Htruthy. cbn [negb]. cbv beta iota.
  destruct (net _) as [response|]; [rewrite Hnet|]; cbn;
    repeat split; assumption.
Qed.

Lemma processImage_parsed_run
      (s : State) (img : string) (net : Network) (response : Response)
      (result tableData : JSValue) :
  capturedImage s = Some img ->
  truthy_str (Some img) = true ->
  net (process_request (nth_error (split "," img) 1)) = Some response ->
  ok response = true ->
  JSON_parse (text response) = Some result ->
  get_prop result "tableData" = inr tableData ->
  run_handler (processImage net) s
  = setIsProcessing false
      (setExtractedData tableData
         (add_effect
            (Fetch (process_request (nth_error (split "," img) 1)))
            (setError None (setIsProcessing true s)))).
Proof.
  intros Himg Htruthy Hnet Hok Hparse Hfield.
  unfold run_handler, processImage, try_finally, try_catch, fetch, json,
    bind, emit, gets, lift, modify, throw, ret.
  cbv beta. rewrite Himg, Htruthy. cbn [negb]. cbv beta iota.
  rewrite Hnet, Hok. cbn [negb]. rewrite Hparse, Hfield. reflexivity.
Qed.

(** What the [catch] block of [processImage] leaves when the body of a
    successful response cannot be used: [thrown] is the [SyntaxError] of
    [response.json()] or the [TypeError] of reading a property of
    [null]. *)
Lemma processImage_caught_run
      (s : State) (img : string) (net : Network) (response : Response)
      (thrown : Exn) :
  capturedImage s = Some img ->
  truthy_str (Some img) = true ->
  net (process_request (nth_error (split "," img) 1)) = Some response ->
  ok response = true ->
  match JSON_parse (text response) with
  | None => thrown = SyntaxError
  | Some result => get_prop result "tableData" = inl thrown
  end ->
  run_handler (processImage net) s
  = setIsProcessing false
      (add_effect (ConsoleError "Processing error:" thrown)
         (setError (Some "Failed to process image. Please try again.")
            (add_effect
               (Fetch (process_request (nth_error (split "," img) 1)))
               (setError None (setIsProcessing true s))))).
Proof.
  intros Himg Htruthy Hnet Hok Hparse.
  unfold run_handler, processImage, try_finally, try_catch, fetch, json,
    bind, emit, gets, lift, modify, throw, ret.
  cbv beta. rewrite Himg, Htruthy. cbn [negb]. cbv beta iota.
  rewrite Hnet, Hok. cbn [negb].
  destruct (JSON_parse (text response)) as [result|].
  - rewrite Hparse. reflexivity.
  - rewrite Hparse. reflexivity.
Qed.

(** C3. Successful extraction. With a captured image present, when the
    response is successful and its body parses as an object whose
    [tableData] is a table with headers and rows, [processImage] ends
    with [extractedData] equal to exactly that table and the error
    message null, whatever the error was before; the image is kept and
    the processing flag cleared. *)
Theorem processImage_success_sets_extractedData :
  forall (s : State) (img : string) (net : Network) (response : Response)
         (fields : list (string * JSValue)) (t : TableData),
    capturedImage s = Some img ->
    truthy_str (Some img) = true ->
    net (process_request (nth_error (split "," img) 1)) = Some response ->
    ok response = true ->
    JSON_parse (text response) = Some (JObj fields) ->
    lookup_field "tableData" fields = Some (of_TableData t) ->
    let s' := run_handler (processImage net) s in
    extractedData s' = of_TableData t
    /\ error s' = None
    /\ capturedImage s' = capturedImage s
    /\ isProcessing s' = false.
Proof.
  intros s img net response fields t Himg Htruthy Hnet Hok Hparse Hfield.
  cbv zeta.
  erewrite processImage_parsed_run;
    [ | exact Himg | exact Htruthy | exact Hnet | exact Hok | exact Hparse
      | unfold get_prop; now rewrite Hfield ].
  repeat split.
Qed.
End Extraction.

(** The failure theorem at the state after an upload, against a server
    answering 500. *)
Lemma processImage_failure_witness :
  error (run_handler (processImage (RT := sample_runtime) failing_server)
                     with_image)
  = Some "Failed to process image. Please try again."
  /\ truthy_str
       (error (run_handler (processImage (RT := sample_runtime) failing_server)
                           with_image)) = true
  /\ extractedData (run_handler (processImage (RT := sample_runtime)
                                   failing_server) with_image)
     = extractedData with_image
  /\ capturedImage (run_handler (processImage (RT := sample_runtime)
                                   failing_server) with_image)
     = capturedImage with_image
  /\ isProcessing (run_handler (processImage (RT := sample_runtime)
                                  failing_server) with_image) = false.
Proof.
  exact (@processImage_failure_keeps_extractedData sample_runtime with_image
           "data:image/jpeg;base64,AAAA" failing_server
           eq_refl eq_refl eq_refl).
Defined.

(** The success theorem at the state after an upload with a stale error,
    against the development server. *)
Lemma processImage_success_witness :
  extractedData (run_handler (processImage (RT := sample_runtime) mock_server)
                             (setError (Some "stale") with_image))
  = of_TableData mock_table
  /\ error (run_handler (processImage (RT := sample_runtime) mock_server)
                        (setError (Some "stale") with_image)) = None
  /\ capturedImage (run_handler (processImage (RT := sample_runtime) mock_server)
                                (setError (Some "stale") with_image))
     = capturedImage (setError (Some "stale") with_image)
  /\ isProcessing (run_handler (processImage (RT := sample_runtime) mock_server)
                               (setError (Some "stale") with_image)) = false.
Proof.
  exact (@processImage_success_sets_extractedData sample_runtime
           (setError (Some "stale") with_image)
           "data:image/jpeg;base64,AAAA" mock_server
           {| status := 200; text := mock_body |}
           [("tableData", of_TableData mock_table)] mock_table
           eq_refl eq_refl eq_refl eq_refl eq_refl eq_refl).
Defined.

(** ** Malformed extraction responses *)

Lemma map_throwing_not_arrays (rs : list JSValue) :
  forallb is_array rs = false -> map_throwing as_array rs = inl TypeError.
Proof.
  induction rs as [|r rs IH]; cbn [forallb map_throwing].
  - discriminate.
  - destruct r; cbn [is_array as_array andb]; try reflexivity.
    intros H. now rewrite (IH H).
Qed.

(** A truthy value without the arrays the markup maps over makes the
    render throw a [TypeError]. *)
Lemma render_TypeError (s : State) :
  truthy (extractedData s) = true ->
  has_arrays (extractedData s) = false ->
  render s = inl TypeError.
Proof.
  unfold render, has_arrays. intros Htruthy. rewrite Htruthy. cbn [negb].
  destruct (extractedData s) as [| |b|q|str|xs|fields];
    try discriminate; try reflexivity.
  cbn [get_prop].
  destruct (lookup_field "headers" fields) as [[| |b|q|str|hs|fs]|];
    try reflexivity.
  cbn [and_then as_array].
  destruct (lookup_field "rows" fields) as [[| |b|q|str|rs|fs]|];
    try reflexivity.
  cbn [and_then as_array]. intros H.
  now rewrite (map_throwing_not_arrays _ H).
Qed.

(** A falsy value renders nothing and throws nothing. *)
Lemma render_falsy (s : State) :
  truthy (extractedData s) = false -> render s = inr tt.
Proof. unfold render. now intros ->. Qed.

(** The text of the first candidate, read step by step. *)
Lemma candidate_text_follows_path (result : JSValue) :
  GeminiClient.candidate_text result
  = follow [ Key "candidates"; Index 0; Key "content"; Key "parts"; Index 0;
             Key "text" ] result.
Proof.
  unfold GeminiClient.candidate_text.
  repeat (cbn [and_then follow];
          match goal with
          | |- context [and_then ?r _] => destruct r; try reflexivity
          end).
Qed.

Section Malformed.
Context {RT : Runtime}.

(** C8, as the program has it. A malformed extraction response is not
    always an unhandled runtime error. In [processImage], a successful
    response whose body is not JSON, or is the JSON value null, ends in
    the handled path: the generic error message is set, [extractedData]
    is unchanged and no exception escapes the handler. Any other parsed
    body has its [tableData] property stored unchecked with no error
    reported: with a falsy value (such as undefined, when the property is
    missing) the next render throws nothing, and with a truthy value
    whose [headers], [rows] or one of its rows is not an array the next
    render throws a [TypeError] that nothing handles. In
    [processTableImage], a successful model response fails the call,
    which logs the exception and rethrows it, when the body is not JSON,
    when reading candidates[0].content.parts[0].text throws, when that
    text is missing, or when it is a string that is not JSON; a text that
    is JSON of any shape, a table or not, is returned unchecked as
    tableData with no error. *)
Theorem malformed_response_paths :
  (forall (s : State) (img : string) (net : Network) (response : Response),
      capturedImage s = Some img ->
      truthy_str (Some img) = true ->
      net (process_request (nth_error (split "," img) 1)) = Some response ->
      ok response = true ->
      let s' := run_handler (processImage net) s in
      ((JSON_parse (text response) = None
        \/ JSON_parse (text response) = Some JNull) ->
       handled_generically s'
       /\ extractedData s' = extractedData s
       /\ (forall e, In (Uncaught e) (effects s') ->
                     In (Uncaught e) (effects s)))
      /\ (forall result tableData : JSValue,
             JSON_parse (text response) = Some result ->
             get_prop result "tableData" = inr tableData ->
             extractedData s' = tableData
             /\ error s' = None
             /\ (truthy tableData = false -> render s' = inr tt)
             /\ (truthy tableData = true -> has_arrays tableData = false ->
                 render s' = inl TypeError)))
  /\ (forall (net : Network) (imageBase64 prompt : string)
             (log : GeminiClient.World) (keyResponse : Response)
             (group1 : string) (geminiResponse : Response),
         net GeminiClient.key_file_request = Some keyResponse ->
         match_literal_dots "GEMINI_API_KEY=" (text keyResponse)
         = Some group1 ->
         net (GeminiClient.gemini_request (trim group1) imageBase64 prompt)
         = Some geminiResponse ->
         ok geminiResponse = true ->
         let requests :=
           [ Fetch GeminiClient.key_file_request;
             Fetch (GeminiClient.gemini_request (trim group1)
                      imageBase64 prompt) ] in
         let fails_with thrown :=
           GeminiClient.processTableImage net imageBase64 prompt log
           = (log ++ requests
                  ++ [ConsoleError "Error processing image:" thrown],
              inl thrown) in
         let text_path :=
           [ Key "candidates"; Index 0; Key "content"; Key "parts"; Index 0;
             Key "text" ] in
         (JSON_parse (text geminiResponse) = None -> fails_with SyntaxError)
         /\ (forall (result : JSValue) (thrown : Exn),
                JSON_parse (text geminiResponse) = Some result ->
                follow text_path result = inl thrown ->
                fails_with thrown)
         /\ (forall result : JSValue,
                JSON_parse (text geminiResponse) = Some result ->
                follow text_path result = inr JUndefined ->
                JSON_parse "undefined" = None ->
                fails_with SyntaxError)
         /\ (forall (result : JSValue) (content : string),
                JSON_parse (text geminiResponse) = Some result ->
                follow text_path result = inr (JStr content) ->
                JSON_parse content = None ->
                fails_with SyntaxError)
         /\ (forall (result : JSValue) (content : string) (v : JSValue),
                JSON_parse (text geminiResponse) = Some result ->
                follow text_path result = inr (JStr content) ->
                JSON_parse content = Some v ->
                GeminiClient.processTableImage net imageBase64 prompt log
                = (log ++ requests, inr (JObj [ ("tableData", v) ])))).
Proof.
  split.
  - intros s img net response Himg Htruthy Hnet Hok. cbv zeta. split.
    + intros Hbad.
      assert (Hrun : exists thrown,
                 run_handler (processImage net) s
                 = setIsProcessing false
                     (add_effect (ConsoleError "Processing error:" thrown)
                        (setError (Some generic_error)
                           (add_effect
                              (Fetch (process_request
                                        (nth_error (split "," img) 1)))
                              (setError None (setIsProcessing true s)))))).
      { destruct Hbad as [Hnone|Hnull].
        - exists SyntaxError. eapply processImage_caught_run; eauto.
          now rewrite Hnone.
        - exists TypeError. eapply processImage_caught_run; eauto.
          now rewrite Hnull. }
      destruct Hrun as [thrown ->]. repeat split.
      intros e. cbn. rewrite !in_app_iff. cbn.
      intros [[H|[H|[]]]|[H|[]]]; [exact H|discriminate|discriminate].
    + intros result tableData Hparse Hfield.
      erewrite processImage_parsed_run; eauto.
      repeat split.
      * intros H. now apply render_falsy.
      * intros H1 H2. now apply render_TypeError.
  - intros net imageBase64 prompt log keyResponse group1 geminiResponse
           Hkey Hmatch Hnet Hok. cbv zeta.
    assert (Hrun : forall outcome : Exn + JSValue,
               match JSON_parse (text geminiResponse) with
               | None => inl SyntaxError
               | Some result =>
                   and_then (GeminiClient.candidate_text result) (fun content =>
                   and_then (JSON_parse_value content) (fun tableData =>
                   inr (JObj [ ("tableData", tableData) ])))
               end = outcome ->
               GeminiClient.processTableImage net imageBase64 prompt log
               = match outcome with
                 | inl thrown =>
                     (log ++ [ Fetch GeminiClient.key_file_request;
                               Fetch (GeminiClient.gemini_request (trim group1)
                                        imageBase64 prompt) ]
                          ++ [ConsoleError "Error processing image:" thrown],
                      inl thrown)
                 | inr v =>
                     (log ++ [ Fetch GeminiClient.key_file_request;
                               Fetch (GeminiClient.gemini_request (trim group1)
                                        imageBase64 prompt) ],
                      inr v)
                 end).
    { intros outcome <-.
      unfold GeminiClient.processTableImage, try_catch, fetch, json, bind,
        GeminiClient.emit, lift, modify, throw, ret.
      cbv beta. rewrite Hkey. cbv beta iota. rewrite Hmatch. cbv beta iota.
      rewrite Hnet, Hok. cbn [negb].
      destruct (JSON_parse (text geminiResponse)) as [result|];
        [|now rewrite <- !app_assoc].
      destruct (GeminiClient.candidate_text result) as [e|content];
        cbn [and_then]; [now rewrite <- !app_assoc|].
      destruct (JSON_parse_value content) as [e|v]; cbn [and_then];
        now rewrite <- !app_assoc. }
    repeat split.
    + intros Hparse. apply (Hrun (inl SyntaxError)). now rewrite Hparse.
    + intros result thrown Hparse Hpath. apply (Hrun (inl thrown)).
      rewrite Hparse, candidate_text_follows_path, Hpath. reflexivity.
    + intros result Hparse Hpath Hundefined. apply (Hrun (inl SyntaxError)).
      rewrite Hparse, candidate_text_follows_path, Hpath.
      unfold JSON_parse_value. cbn [and_then ToString].
      now rewrite Hundefined.
    + intros result content Hparse Hpath Hcontent.
      apply (Hrun (inl SyntaxError)).
      rewrite Hparse, candidate_text_follows_path, Hpath.
      unfold JSON_parse_value. cbn [and_then ToString].
      now rewrite Hcontent.
    + intros result content v Hparse Hpath Hcontent.
      apply (Hrun (inr (JObj [ ("tableData", v) ]))).
      rewrite Hparse, candidate_text_follows_path, Hpath.
      unfold JSON_parse_value. cbn [and_then ToString].
      now rewrite Hcontent.
Qed.
End Malformed.

(** The theorem at a response whose table has headers and no rows: the
    handler reports nothing and the render throws. *)
Lemma malformed_response_witness :
  error (run_handler (processImage (RT := sample_runtime) rowless_server)
                     with_image) = None
  /\ render (run_handler (processImage (RT := sample_runtime) rowless_server)
                         with_image) = inl TypeError.
Proof.
  pose proof (proj2 (proj1 (@malformed_response_paths sample_runtime)
                       with_image "data:image/jpeg;base64,AAAA"
                       rowless_server
                       {| status := 200; text := rowless_body |}
                       eq_refl eq_refl eq_refl eq_refl)
                (JObj [ ("tableData", rowless_table) ]) rowless_table
                eq_refl eq_refl) as H.
  split.
  - exact (proj1 (proj2 H)).
  - exact (proj2 (proj2 (proj2 H)) eq_refl eq_refl).
Defined.

(** Against C8 as stated: a 200 response whose body is an HTML page is
    malformed, and [processImage] takes the handled path: the generic
    message is set, no exception escapes and the render succeeds. *)
Lemma unparsable_body_is_handled :
  ok html_response = true
  /\ JSON_parse (Runtime := sample_runtime) (text html_response) = None
  /\ handled_generically
       (run_handler (processImage (RT := sample_runtime) html_server) with_image)
  /\ ~ surfaces_unhandled
         (run_handler (processImage (RT := sample_runtime) html_server)
                      with_image).
Proof.
  repeat split.
  intros [[e H]|[e H]].
  - cbn in H. destruct H as [H|[H|[]]]; discriminate.
  - cbn in H. discriminate.
Qed.

(** ** What the user can reach *)

Section Reach.
Context {RT : Runtime}.

Lemma handler_camera_hidden (ev : Event) (s : State) :
  camera_hidden s -> camera_hidden (run_handler (handler ev) s).
Proof.
  intros [Hshow Hvideo].
  destruct ev as [[reason|stream] | file loaded | env | | net | | now | net];
    cbn [handler].
  - unfold_handlers. cbn. now split.
  - unfold_handlers. cbv beta iota. cbn [videoRef set_streamRef add_effect].
    rewrite Hvideo. now split.
  - unfold_handlers. split_cases; now split.
  - unfold run_handler, capturePhoto, bind, gets, modify, ret.
    rewrite Hvideo. now split.
  - unfold run_handler. rewrite stopCamera_run. now split.
  - unfold_handlers. cbv beta iota. split_cases; now split.
  - unfold run_handler, resetApp, bind, modify. rewrite stopCamera_run.
    now split.
  - unfold_handlers. cbv beta iota. split_cases; now split.
  - unfold_handlers. cbv beta iota. split_cases; now split.
Qed.

(** From the mounted component no sequence of user events shows the
    camera view: [startCamera] tests [videoRef.current], which is set
    only while the view is shown. The Capture and Cancel buttons are
    therefore never on screen. *)
Lemma camera_view_never_shown (evs : list Event) :
  forall s s' : State,
    camera_hidden s -> run evs s = Some s' -> camera_hidden s'.
Proof.
  induction evs as [|ev evs IH]; intros s s' Hs; cbn [run].
  - now intros [= <-].
  - unfold dispatch. destruct (enabled ev s); [|discriminate].
    destruct (render _); [discriminate|].
    apply IH. apply (handler_camera_hidden ev) in Hs.
    destruct Hs as [Hshow Hvideo]. unfold camera_hidden, commit.
    cbn [showCamera videoRef set_canvasRef set_videoRef].
    rewrite Hshow. now split.
Qed.

Lemma stop_count_zero (t : Track) (s : State) :
  ~ In (TrackStop t) (effects s) -> stop_count t s = 0.
Proof.
  unfold stop_count. induction (effects s) as [|e es IH]; intros H.
  - reflexivity.
  - cbn [filter]. destruct e; cbn [is_stop_of];
      try (apply IH; intros ?; apply H; now right).
    destruct (Nat.eqb_spec t track) as [->|Hne].
    + exfalso. apply H. now left.
    + apply IH. intros ?. apply H. now right.
Qed.

Lemma stopCamera_out_of_reach (t : Track) (s : State) :
  out_of_reach t s -> out_of_reach t (fst (stopCamera s)).
Proof.
  intros [Hlog Href]. rewrite stopCamera_run. unfold out_of_reach.
  cbn [fst effects active_tracks streamRef]. split.
  - rewrite in_app_iff, in_map_iff. intros [H|[t' [Heq Hin]]].
    + now apply Hlog.
    + apply Href. now injection Heq as ->.
  - intros [].
Qed.

Lemma handler_out_of_reach (t : Track) (ev : Event) (s : State) :
  ~ grants_track t ev ->
  out_of_reach t s ->
  out_of_reach t (run_handler (handler ev) s).
Proof.
  intros Hfresh Hs.
  destruct ev as [[reason|stream] | file loaded | env | | net | | now | net];
    cbn [handler grants_track] in *.
  - (* startCamera, denied *)
    unfold_handlers. cbn. close_out_of_reach.
  - (* startCamera, granted *)
    unfold_handlers. cbv beta iota. destruct (videoRef _); close_out_of_reach.
  - (* handleFileUpload *)
    unfold_handlers. split_cases; close_out_of_reach.
  - (* capturePhoto *)
    unfold run_handler, capturePhoto, bind, gets, modify, ret.
    destruct (videoRef s), (canvasRef s); try exact Hs.
    destruct (getContext env).
    + rewrite stopCamera_run. cbn [fst snd].
      pose proof (stopCamera_out_of_reach Hs) as H.
      rewrite stopCamera_run in H. exact H.
    + close_out_of_reach.
  - (* stopCamera *)
    unfold run_handler.
    pose proof (stopCamera_out_of_reach Hs) as H.
    destruct (stopCamera s) as [s' [e|[]]] eqn:E.
    + rewrite stopCamera_run in E. discriminate.
    + exact H.
  - (* processImage *)
    unfold_handlers. cbv beta iota. split_cases; close_out_of_reach.
  - (* resetApp *)
    unfold run_handler, resetApp, bind, modify.
    rewrite stopCamera_run.
    pose proof (stopCamera_out_of_reach Hs) as H.
    rewrite stopCamera_run in H. exact H.
  - (* downloadCSV *)
    unfold_handlers. cbv beta iota. split_cases; close_out_of_reach.
  - (* addToDatabase *)
    unfold_handlers. cbv beta iota. split_cases; close_out_of_reach.
Qed.

Lemma handler_keeps_log (x : Effect) (ev : Event) (s : State) :
  In x (effects s) -> In x (effects (run_handler (handler ev) s)).
Proof.
  intros Hs.
  destruct ev as [[reason|stream] | file loaded | env | | net | | now | net];
    cbn [handler].
  - unfold_handlers. cbn. exact Hs.
  - unfold_handlers. cbv beta iota. destruct (videoRef _);
      cbn; rewrite in_app_iff; now left.
  - unfold_handlers. split_cases; exact Hs.
  - unfold run_handler, capturePhoto, bind, gets, modify, ret.
    destruct (videoRef s), (canvasRef s); try exact Hs.
    destruct (getContext env); [|exact Hs].
    rewrite stopCamera_run. cbn. rewrite in_app_iff; now left.
  - unfold run_handler. rewrite stopCamera_run. cbn.
    rewrite in_app_iff; now left.
  - unfold_handlers. cbv beta iota. split_cases; cbn;
      rewrite ?in_app_iff; cbn; tauto.
  - unfold run_handler, resetApp, bind, modify. rewrite stopCamera_run. cbn.
    rewrite in_app_iff; now left.
  - unfold_handlers. cbv beta iota. split_cases; cbn;
      rewrite ?in_app_iff; cbn; tauto.
  - unfold_handlers. cbv beta iota. split_cases; cbn;
      rewrite ?in_app_iff; cbn; tauto.
Qed.

Lemma dispatch_out_of_reach (t : Track) (ev : Event) (s s' : State) :
  ~ grants_track t ev ->
  out_of_reach t s ->
  dispatch ev s = Some s' ->
  out_of_reach t s'.
Proof.
  intros Hfresh Hs. unfold dispatch.
  destruct (enabled ev s); [|discriminate].
  destruct (render _); [discriminate|].
  intros [= <-]. now apply handler_out_of_reach.
Qed.

Lemma dispatch_keeps_log (x : Effect) (ev : Event) (s s' : State) :
  In x (effects s) -> dispatch ev s = Some s' -> In x (effects s').
Proof.
  intros Hs. unfold dispatch.
  destruct (enabled ev s); [|discriminate].
  destruct (render _); [discriminate|].
  intros [= <-]. now apply handler_keeps_log.
Qed.

Lemma run_out_of_reach (t : Track) (evs : list Event) :
  forall s s' : State,
    (forall ev, In ev evs -> ~ grants_track t ev) ->
    out_of_reach t s ->
    run evs s = Some s' ->
    out_of_reach t s'.
Proof.
  induction evs as [|ev evs IH]; intros s s' Hfresh Hs; cbn [run].
  - now intros [= <-].
  - destruct (dispatch ev s) as [s1|] eqn:E; [|discriminate].
    apply IH.
    + intros ev' Hin. apply Hfresh. now right.
    + eapply dispatch_out_of_reach; [|exact Hs|exact E].
      apply Hfresh. now left.
Qed.

Lemma run_keeps_log (x : Effect) (evs : list Event) :
  forall s s' : State,
    In x (effects s) -> run evs s = Some s' -> In x (effects s').
Proof.
  induction evs as [|ev evs IH]; intros s s' Hs; cbn [run].
  - now intros [= <-].
  - destruct (dispatch ev s) as [s1|] eqn:E; [|discriminate].
    apply IH. eapply dispatch_keeps_log; [exact Hs|exact E].
Qed.

(** C4, where the program departs from it. Starting from the mounted
    component, Take Photo can be pressed again after a granted request,
    because the [<video>] element the handler tests for exists only while
    the camera view is shown. The second stream replaces the first in
    [streamRef.current], and whatever the user does afterwards (capture,
    cancel, reset included), as long as no later stream reuses the
    track, no track of the first stream is ever stopped. *)
Theorem overwritten_stream_is_never_stopped :
  forall (m1 m2 : MediaStream) (t : Track) (evs : list Event) (s : State),
    In t (getTracks m1) ->
    ~ In t (getTracks m2) ->
    (forall ev, In ev evs -> ~ grants_track t ev) ->
    run (TakePhoto (inr m1) :: TakePhoto (inr m2) :: evs) mounted = Some s ->
    In (Acquired m1) (effects s) /\ stop_count t s = 0.
Proof.
  intros m1 m2 t evs s Hin1 Hnot2 Hfresh.
  cbn [run]. 
  change (dispatch (TakePhoto (inr m1)) mounted)
    with (Some (commit (run_handler (startCamera (inr m1)) mounted))).
  cbv beta iota.
  change (dispatch (TakePhoto (inr m2))
            (commit (run_handler (startCamera (inr m1)) mounted)))
    with (Some (commit (run_handler (startCamera (inr m2))
                  (commit (run_handler (startCamera (inr m1)) mounted))))).
  cbv beta iota. intros Hrun. split.
  - eapply run_keeps_log; [|exact Hrun]. cbn. now left.
  - apply stop_count_zero.
    eapply run_out_of_reach in Hrun; [apply Hrun|exact Hfresh|].
    split; cbn.
    + intros [H|[H|[]]]; discriminate.
    + exact Hnot2.
Qed.
End Reach.

(** The lemma at the sample trace: after two granted requests, an
    upload and a reset the camera view is still hidden. *)
Lemma camera_view_witness : camera_hidden leak_final.
Proof.
  exact (@camera_view_never_shown sample_runtime leak_trace mounted leak_final
           (conj eq_refl eq_refl) eq_refl).
Defined.

(** The theorem at two one-track streams, followed by an upload and a
    reset: the reset stops the second stream's track and not the
    first's. *)
Lemma overwritten_stream_witness :
  In (Acquired first_stream) (effects leak_final)
  /\ stop_count 1 leak_final = 0.
Proof.
  refine (@overwritten_stream_is_never_stopped sample_runtime
            first_stream second_stream 1
            [ UploadImage (Some png_file) (Some "data:image/png;base64,AAAA");
              StartOver ]
            leak_final _ _ _ eq_refl).
  - cbn. now left.
  - cbn. intros [H|[]]. discriminate.
  - intros ev [<-|[<-|[]]]; cbn; tauto.
Defined.

(** ** The direct client *)

Section Direct.
Context {RT : Runtime}.

(** C9. [processTableImage] fetches the key file (a GET of /.api_key) and
    takes as API key the trimmed text that follows GEMINI_API_KEY= on its
    line; the pattern matches wherever the key name is followed by a
    character of the same line. When the pattern does not match, the call
    fails with an error and the only request made is the one for the key
    file. When it matches, the endpoint is called next: a POST whose URL
    is the endpoint address followed by the key, and whose body holds the
    prompt as the text part and the image as inline jpeg data. If that
    response is successful and the text read at
    candidates[0].content.parts[0].text parses as a table, the call
    returns that table wrapped as an object with the single property
    tableData. *)
Theorem processTableImage_key_then_endpoint :
  forall (net : Network) (imageBase64 prompt : string)
         (log : GeminiClient.World) (keyResponse : Response),
    let key_request :=
      {| url := "/.api_key"; method := "GET"; http_headers := [];
         body := JUndefined |} in
    net key_request = Some keyResponse ->
    (forall v rest : string,
        v <> EmptyString -> single_line v = true -> line_end rest = true ->
        match_literal_dots "GEMINI_API_KEY="
          ("GEMINI_API_KEY=" ++ v ++ rest)%string = Some v)
    /\ (forall (pre : string) (c : ascii) (rest : string),
          is_line_terminator c = false ->
          match_literal_dots "GEMINI_API_KEY="
            (pre ++ "GEMINI_API_KEY=" ++ String c rest)%string <> None)
    /\ (match_literal_dots "GEMINI_API_KEY=" (text keyResponse) = None ->
        GeminiClient.processTableImage net imageBase64 prompt log
        = (log ++ [ Fetch key_request;
                    ConsoleError "Error processing image:"
                      (Error "Gemini API key not found in .api_key file") ],
           inl (Error "Gemini API key not found in .api_key file")))
    /\ (forall group1 : string,
          match_literal_dots "GEMINI_API_KEY=" (text keyResponse)
          = Some group1 ->
          let request :=
            {| url :=
                 ("https://generativelanguage.googleapis.com/v1beta/models/gemini-1.5-flash:generateContent?key="
                    ++ trim group1)%string;
               method := "POST";
               http_headers := [("Content-Type", "application/json")];
               body :=
                 JObj [ ("contents",
                   JArr [ JObj [ ("parts",
                     JArr [ JObj [ ("text", JStr prompt) ];
                            JObj [ ("inline_data",
                              JObj [ ("mime_type", JStr "image/jpeg");
                                     ("data", JStr imageBase64) ]) ] ]) ] ]) ]
            |} in
          (exists rest outcome,
              GeminiClient.processTableImage net imageBase64 prompt log
              = (log ++ Fetch key_request :: Fetch request :: rest, outcome))
          /\ (forall (geminiResponse : Response) (result : JSValue)
                     (content : string) (t : TableData),
                 net request = Some geminiResponse ->
                 ok geminiResponse = true ->
                 JSON_parse (text geminiResponse) = Some result ->
                 follow [ Key "candidates"; Index 0; Key "content";
                          Key "parts"; Index 0; Key "text" ] result
                 = inr (JStr content) ->
                 JSON_parse content = Some (of_TableData t) ->
                 GeminiClient.processTableImage net imageBase64 prompt log
                 = (log ++ [ Fetch key_request; Fetch request ],
                    inr (JObj [ ("tableData", of_TableData t) ])))).
Proof.
  intros net imageBase64 prompt log keyResponse key_request Hkey.
  change key_request with GeminiClient.key_file_request in *.
  split; [|split; [|split]].
  - intros v rest. apply match_literal_dots_line.
  - intros pre c rest Hc.
    destruct (@match_literal_dots_complete "GEMINI_API_KEY=" pre c rest Hc)
      as [cap Hcap].
    rewrite Hcap. discriminate.
  - intros Hnone. unfold_client. cbv beta. rewrite Hkey. cbv beta iota.
    rewrite Hnone. cbv beta iota. now rewrite <- app_assoc.
  - intros group1 Hsome request.
    change request
      with (GeminiClient.gemini_request (trim group1) imageBase64 prompt) in *.
    split.
    + unfold_client. cbv beta. rewrite Hkey. cbv beta iota.
      rewrite Hsome. cbv beta iota. split_cases;
        rewrite <- ?app_assoc; cbn [app]; eexists _, _; reflexivity.
    + intros geminiResponse result content t Hnet Hok Hparse Htext Htable.
      rewrite <- candidate_text_follows_path in Htext.
      unfold_client. cbv beta. rewrite Hkey. cbv beta iota.
      rewrite Hsome. cbv beta iota. rewrite Hnet, Hok.
      cbn [negb]. rewrite Hparse, Htext. unfold JSON_parse_value.
      cbn [ToString and_then]. rewrite Htable. now rewrite <- app_assoc.
Qed.
End Direct.

(** The client theorem at a key file whose second line holds the key
    between spaces, and a model answer holding the table A, B. *)
Lemma processTableImage_witness :
  GeminiClient.processTableImage (RT := sample_runtime) gemini_network
    "AAAA" "Extract the table" []
  = ([ Fetch {| url := "/.api_key"; method := "GET"; http_headers := [];
                body := JUndefined |};
       Fetch
         {| url :=
              "https://generativelanguage.googleapis.com/v1beta/models/gemini-1.5-flash:generateContent?key=abc123";
            method := "POST";
            http_headers := [("Content-Type", "application/json")];
            body :=
              JObj [ ("contents",
                JArr [ JObj [ ("parts",
                  JArr [ JObj [ ("text", JStr "Extract the table") ];
                         JObj [ ("inline_data",
                           JObj [ ("mime_type", JStr "image/jpeg");
                                  ("data", JStr "AAAA") ]) ] ]) ] ]) ] |} ],
     inr (JObj [ ("tableData", of_TableData table_AB) ])).
Proof.
  exact (proj2
           (proj2 (proj2 (proj2
              (@processTableImage_key_then_endpoint sample_runtime
                 gemini_network "AAAA" "Extract the table" []
                 {| status := 200; text := key_file_text |} eq_refl)))
              " abc123 " eq_refl)
           {| status := 200; text := answer_body |} answer_value answer_text
           table_AB eq_refl eq_refl eq_refl eq_refl eq_refl).
Defined.

(* ================================================================== *)
(** * Further properties of the handlers *)
(* ================================================================== *)

(** ** [split] and [join] *)

Lemma split_not_nil (sep : ascii) (s : string) : split sep s <> [].
Proof.
  destruct s as [|c rest]; cbn [split]; [discriminate|].
  destruct (Ascii.eqb c sep); [discriminate|].
  destruct (split sep rest); discriminate.
Qed.

Lemma split_without_separator (sep : ascii) (s : string) :
  has_char sep s = false -> split sep s = [s].
Proof.
  induction s as [|c rest IH]; cbn [has_char split]; intros H.
  - reflexivity.
  - apply orb_false_iff in H as [Hc Hrest]. rewrite Hc, (IH Hrest).
    reflexivity.
Qed.

Lemma split_at_separator (sep : ascii) (a b : string) :
  has_char sep a = false ->
  split sep (a ++ String sep b)%string = a :: split sep b.
Proof.
  induction a as [|c rest IH]; cbn [has_char split append]; intros H.
  - now rewrite Ascii.eqb_refl.
  - apply orb_false_iff in H as [Hc Hrest]. rewrite Hc, (IH Hrest).
    reflexivity.
Qed.

Lemma concat_two (sep x y : string) (rest : list string) :
  String.concat sep (x :: y :: rest)
  = (x ++ sep ++ String.concat sep (y :: rest))%string.
Proof. reflexivity. Qed.

(** Joining the pieces of a split gives the string back. *)
Lemma concat_split (sep : ascii) (s : string) :
  String.concat (String sep EmptyString) (split sep s) = s.
Proof.
  induction s as [|c rest IH]; cbn [split].
  - reflexivity.
  - destruct (Ascii.eqb_spec c sep) as [->|Hne].
    + pose proof (split_not_nil sep rest) as Hnil.
      destruct (split sep rest) as [|h t]; [contradiction|].
      rewrite concat_two, IH. reflexivity.
    + destruct (split sep rest) as [|h t] eqn:E.
      * now apply split_not_nil in E.
      * destruct t as [|h' t'].
        -- cbn in *. now rewrite IH.
        -- rewrite concat_two in *. cbn [append] in *. now rewrite IH.
Qed.

(** Splitting a join gives the pieces back when there is at least one
    piece and none holds the separator. *)
Lemma split_concat (sep : ascii) (xs : list string) :
  xs <> [] ->
  Forall (fun x => has_char sep x = false) xs ->
  split sep (String.concat (String sep EmptyString) xs) = xs.
Proof.
  induction xs as [|x rest IH]; intros Hne Hall; [contradiction|].
  inversion Hall as [|? ? Hx Hrest]; subst.
  destruct rest as [|y rest'].
  - cbn [String.concat]. now apply split_without_separator.
  - rewrite concat_two. cbn [append].
    rewrite split_at_separator by exact Hx.
    rewrite IH; [reflexivity|discriminate|exact Hrest].
Qed.

Lemma has_char_append (c : ascii) (a b : string) :
  has_char c (a ++ b)%string = has_char c a || has_char c b.
Proof.
  induction a as [|x a IH]; cbn [has_char append].
  - reflexivity.
  - now rewrite IH, orb_assoc.
Qed.

Lemma has_char_concat (c : ascii) (sep : string) (xs : list string) :
  has_char c sep = false ->
  Forall (fun x => has_char c x = false) xs ->
  has_char c (String.concat sep xs) = false.
Proof.
  intros Hsep. induction xs as [|x rest IH]; intros Hall.
  - reflexivity.
  - inversion Hall as [|? ? Hx Hrest]; subst.
    destruct rest as [|y rest'].
    + exact Hx.
    + rewrite concat_two, !has_char_append, Hx, Hsep, (IH Hrest).
      reflexivity.
Qed.

(** ** CSV export read back *)

Section CSVReadBack.
Context {RT : Runtime}.

Lemma plain_cell_no_comma (cells : list string) :
  Forall (fun c => plain_cell c = true) cells ->
  Forall (fun c => has_char "," c = false) cells.
Proof.
  apply Forall_impl. intros c H. unfold plain_cell in H.
  apply andb_true_iff in H as [H _]. now apply negb_true_iff in H.
Qed.

Lemma plain_cell_no_newline (cells : list string) :
  Forall (fun c => plain_cell c = true) cells ->
  Forall (fun c => has_char LF c = false) cells.
Proof.
  apply Forall_impl. intros c H. unfold plain_cell in H.
  apply andb_true_iff in H as [_ H]. now apply negb_true_iff in H.
Qed.

Lemma plain_line (cells : list string) :
  Forall (fun c => plain_cell c = true) cells ->
  has_char LF (String.concat "," cells) = false.
Proof.
  intros H. apply has_char_concat; [reflexivity|].
  now apply plain_cell_no_newline.
Qed.

Lemma split_line (cells : list string) :
  cells <> [] ->
  Forall (fun c => plain_cell c = true) cells ->
  split "," (String.concat "," cells) = cells.
Proof.
  intros Hne H. apply split_concat; [exact Hne|].
  now apply plain_cell_no_comma.
Qed.

Lemma split_lines (rs : list (list string)) :
  Forall (fun row => row <> []) rs ->
  Forall (Forall (fun c => plain_cell c = true)) rs ->
  map (split ",") (map (String.concat ",") rs) = rs.
Proof.
  induction rs as [|r rs IH]; intros Hne Hplain; cbn [map].
  - reflexivity.
  - inversion Hne; inversion Hplain; subst.
    rewrite split_line, IH by assumption. reflexivity.
Qed.

(** The export of [downloadCSV] is lossless on plain tables: when the
    header row and every data row have at least one cell and no cell
    holds a comma or a newline, cutting the exported text at newlines
    and commas gives back the headers followed by the rows. *)
Theorem csv_export_reads_back :
  forall t : TableData,
    headers t <> [] ->
    Forall (fun row => row <> []) (rows t) ->
    Forall (fun c => plain_cell c = true) (headers t) ->
    Forall (Forall (fun c => plain_cell c = true)) (rows t) ->
    exists content,
      csv_of (of_TableData t) = inr content
      /\ parse_csv content = headers t :: rows t.
Proof.
  intros t Hh Hr Hph Hpr. exists (csv_text t). split.
  - apply csv_of_TableData.
  - unfold parse_csv, csv_text, csv_lines.
    change nl with (String LF EmptyString).
    rewrite split_concat.
    + cbn [map]. rewrite split_line, split_lines by assumption. reflexivity.
    + discriminate.
    + constructor; [now apply plain_line|].
      apply Forall_map. revert Hpr. apply Forall_impl.
      intros row. apply plain_line.
Qed.

(** The download is named after the date of the timestamp: for a
    [toISOString()] value whose part before the first T is [date], the
    file offered is coal-log-[date].csv. *)
Theorem downloadCSV_named_by_date :
  forall (date time : string) (t : TableData) (s : State),
    has_char "T" date = false ->
    run_handler (downloadCSV (date ++ String "T" time))
                (setExtractedData (of_TableData t) s)
    = add_effect
        (Download ("coal-log-" ++ date ++ ".csv")%string (csv_text t))
        (setExtractedData (of_TableData t) s).
Proof.
  intros date time t s Hdate. rewrite downloadCSV_TableData.
  unfold csv_filename. now rewrite split_at_separator.
Qed.
End CSVReadBack.

(** The read-back theorem at the table A, B. *)
Lemma csv_export_reads_back_witness :
  exists content,
    csv_of (RT := sample_runtime) (of_TableData table_AB) = inr content
    /\ parse_csv content = [ ["A"; "B"]; ["1"; "2"]; ["3"; "4"] ].
Proof.
  refine (@csv_export_reads_back sample_runtime table_AB _ _ _ _).
  - discriminate.
  - repeat constructor; discriminate.
  - repeat constructor.
  - repeat constructor.
Defined.

(** The naming theorem at a timestamp of 15 January 2024. *)
Lemma downloadCSV_named_by_date_witness :
  run_handler (downloadCSV (RT := sample_runtime) "2024-01-15T09:30:00.000Z")
              (setExtractedData (of_TableData table_AB) mounted)
  = add_effect
      (Download "coal-log-2024-01-15.csv" (csv_text table_AB))
      (setExtractedData (of_TableData table_AB) mounted).
Proof.
  exact (@downloadCSV_named_by_date sample_runtime "2024-01-15" "09:30:00.000Z"
           table_AB mounted eq_refl).
Defined.

(** ** [processImage]: the request and what the handler leaves alone *)

Section ProcessImage.
Context {RT : Runtime}.

(** With an image present the handler ends in one of two shapes: the
    value of [result.tableData] stored, or the [catch] block run. *)
Lemma processImage_cases (s : State) (img : string) (net : Network) :
  capturedImage s = Some img ->
  truthy_str (Some img) = true ->
  (exists v,
      run_handler (processImage net) s
      = setIsProcessing false
          (setExtractedData v
             (add_effect
                (Fetch (process_request (nth_error (split "," img) 1)))
                (setError None (setIsProcessing true s)))))
  \/ (exists thrown,
         run_handler (processImage net) s
         = setIsProcessing false
             (add_effect (ConsoleError "Processing error:" thrown)
                (setError (Some "Failed to process image. Please try again.")
                   (add_effect
                      (Fetch (process_request (nth_error (split "," img) 1)))
                      (setError None (setIsProcessing true s)))))).
Proof.
  intros Himg Htruthy.
  unfold run_handler, processImage, try_finally, try_catch, fetch, json,
    bind, emit, gets, lift, modify, throw, ret.
  cbv beta. rewrite Himg, Htruthy. cbn [negb]. cbv beta iota.
  destruct (net _) as [response|]; [|right; eexists; reflexivity].
  destruct (negb (ok response)); [right; eexists; reflexivity|].
  destruct (JSON_parse (text response)) as [result|];
    [|right; eexists; reflexivity].
  destruct (get_prop result "tableData") as [e|v].
  - right; eexists; reflexivity.
  - left; eexists; reflexivity.
Qed.

Lemma processImage_without_image (s : State) (net : Network) :
  truthy_str (capturedImage s) = false ->
  run_handler (processImage net) s = s.
Proof.
  intros H. unfold run_handler, processImage, bind, gets, ret.
  now rewrite H.
Qed.

Lemma data_url_not_empty (pre payload : string) :
  truthy_str (Some (pre ++ String "," payload)%string) = true.
Proof. destruct pre; reflexivity. Qed.

(** The request sent for extraction is a POST of JSON to
    /api/process-table whose body holds the fixed prompt and, as image,
    what stands between the first and the second comma of the captured
    string: for a data URL with one comma, everything after it; when
    more commas follow, only the part up to the second one. A captured
    string with no comma is sent all the same, with the image property
    undefined. *)
Theorem processImage_sends_payload_after_comma :
  forall (s : State) (net : Network),
    let request image :=
      {| url := "/api/process-table";
         method := "POST";
         http_headers := [("Content-Type", "application/json")];
         body :=
           JObj [ ("image", image);
                  ("prompt",
                   JStr "Extract all table data from this coal log book image. Return the data in JSON format with 'headers' array and 'rows' array. Each row should be an array of cell values. Focus on coal-related data like date, shift, coal type, quantity, location, etc.") ]
      |} in
    (forall pre payload rest : string,
        has_char "," pre = false ->
        has_char "," payload = false ->
        (rest = EmptyString \/ exists more, rest = String "," more) ->
        capturedImage s = Some (pre ++ String "," (payload ++ rest))%string ->
        exists tail,
          effects (run_handler (processImage net) s)
          = effects s ++ Fetch (request (JStr payload)) :: tail)
    /\ (forall img : string,
           has_char "," img = false ->
           truthy_str (Some img) = true ->
           capturedImage s = Some img ->
           exists tail,
             effects (run_handler (processImage net) s)
             = effects s ++ Fetch (request JUndefined) :: tail).
Proof.
  intros s net request. split.
  - intros pre payload rest Hpre Hpay Hrest Himg.
    assert (Hsplit : nth_error
                       (split "," (pre ++ String "," (payload ++ rest))) 1
                     = Some payload).
    { rewrite split_at_separator by assumption.
      destruct Hrest as [->|[more ->]].
      - rewrite append_empty_r, split_without_separator by assumption.
        reflexivity.
      - rewrite split_at_separator by assumption. reflexivity. }
    destruct (processImage_cases s net Himg
                (data_url_not_empty pre (payload ++ rest)))
      as [[v ->]|[thrown ->]]; rewrite Hsplit; cbn [effects setIsProcessing
        setExtractedData add_effect setError]; rewrite <- ?app_assoc;
      eexists; reflexivity.
  - intros img Hno Htruthy Himg.
    assert (Hsplit : nth_error (split "," img) 1 = None).
    { now rewrite split_without_separator. }
    destruct (processImage_cases s net Himg Htruthy)
      as [[v ->]|[thrown ->]]; rewrite Hsplit; cbn [effects setIsProcessing
        setExtractedData add_effect setError]; rewrite <- ?app_assoc;
      eexists; reflexivity.
Qed.

(** Whatever the network answers, [processImage] lets no exception
    escape, stops no track and leaves the captured image, the camera view
    and the stream reference as they were. Without a captured image it
    changes nothing and sends nothing; with one it sends exactly one
    request, logs at most the caught exception after it, and ends with
    the processing flag cleared. *)
Theorem processImage_frame :
  forall (s : State) (net : Network),
    let s' := run_handler (processImage net) s in
    capturedImage s' = capturedImage s
    /\ showCamera s' = showCamera s
    /\ streamRef s' = streamRef s
    /\ (forall e, In (Uncaught e) (effects s') -> In (Uncaught e) (effects s))
    /\ (forall t, stop_count t s' = stop_count t s)
    /\ (truthy_str (capturedImage s) = false -> s' = s)
    /\ (truthy_str (capturedImage s) = true ->
        isProcessing s' = false
        /\ exists request tail,
             effects s' = effects s ++ Fetch request :: tail
             /\ url request = "/api/process-table"
             /\ (tail = [] \/ exists thrown,
                    tail = [ConsoleError "Processing error:" thrown])).
Proof.
  intros s net. cbv zeta.
  destruct (truthy_str (capturedImage s)) eqn:Htruthy.
  - destruct (capturedImage s) as [img|] eqn:Himg; [|discriminate].
    destruct (processImage_cases s net Himg Htruthy) as [[v ->]|[thrown ->]];
      unfold stop_count;
      cbn [capturedImage showCamera streamRef effects isProcessing
           setIsProcessing setExtractedData add_effect setError];
      rewrite ?filter_app, ?length_app, ?in_app_iff; cbn;
      repeat split; try assumption; try discriminate; try lia.
    + intros e. rewrite in_app_iff. cbn. intros [H|[H|[]]];
        [exact H|discriminate].
    + intros t. rewrite filter_app, length_app. cbn. lia.
    + eexists _, _. split; [reflexivity|]. split; [reflexivity|]. now left.
    + intros e. rewrite !in_app_iff. cbn.
      intros [[H|[H|[]]]|[H|[]]]; [exact H|discriminate|discriminate].
    + intros t. rewrite !filter_app, !length_app. cbn. lia.
    + eexists _, _. rewrite <- app_assoc. split; [reflexivity|].
      split; [reflexivity|]. right. eexists. reflexivity.
  - rewrite processImage_without_image by exact Htruthy.
    repeat split; auto; discriminate.
Qed.
End ProcessImage.

(** The payload theorem at the sample data URL. *)
Lemma processImage_payload_witness :
  exists tail,
    effects (run_handler (processImage (RT := sample_runtime) mock_server)
                         with_image)
    = effects with_image
      ++ Fetch
           {| url := "/api/process-table";
              method := "POST";
              http_headers := [("Content-Type", "application/json")];
              body :=
                JObj [ ("image", JStr "AAAA");
                       ("prompt",
                        JStr "Extract all table data from this coal log book image. Return the data in JSON format with 'headers' array and 'rows' array. Each row should be an array of cell values. Focus on coal-related data like date, shift, coal type, quantity, location, etc.") ]
           |} :: tail.
Proof.
  exact (proj1 (@processImage_sends_payload_after_comma sample_runtime
                  with_image mock_server)
           "data:image/jpeg;base64" "AAAA" "" eq_refl eq_refl
           (or_introl eq_refl) eq_refl).
Defined.

(** The frame theorem at the sample image against a gateway answering
    with an HTML page. *)
Lemma processImage_frame_witness :
  isProcessing (run_handler (processImage (RT := sample_runtime) html_server)
                            with_image) = false.
Proof.
  exact (proj1 (proj2 (proj2 (proj2 (proj2 (proj2 (proj2
           (@processImage_frame sample_runtime with_image html_server))))))
           eq_refl)).
Defined.

(** ** [addToDatabase] *)

Section Save.

(** The request [addToDatabase] sends for the extracted data. *)
Lemma addToDatabase_cases (s : State) (net : Network) :
  truthy (extractedData s) = true ->
  let request := {| url := "/api/save-to-database";
                    method := "POST";
                    http_headers := json_headers;
                    body := extractedData s |} in
  run_handler (addToDatabase net) s
  = match net request with
    | Some response =>
        if ok response
        then add_effect (Alert "Data successfully added to database")
               (add_effect (Fetch request) s)
        else setError (Some "Failed to save to database. Please try again.")
               (add_effect (Fetch request) s)
    | None =>
        setError (Some "Failed to save to database. Please try again.")
          (add_effect (Fetch request) s)
    end.
Proof.
  intros Htruthy. cbv zeta.
  unfold run_handler, addToDatabase, try_catch, fetch, bind, emit, gets,
    modify, throw, ret.
  cbv beta. rewrite Htruthy. cbn [negb]. cbv beta iota.
  destruct (net _) as [response|]; [|reflexivity].
  destruct (ok response); reflexivity.
Qed.

(** Saving never changes the extracted data or the captured image and
    lets no exception escape. Without data it does nothing. With data it
    posts the data itself to the save endpoint once; a successful
    response shows the alert and leaves the error message as it was (an
    earlier error is not cleared), and a rejected request or a
    non-success status sets the save error message and shows no alert. *)
Theorem addToDatabase_outcomes :
  forall (s : State) (net : Network),
    let s' := run_handler (addToDatabase net) s in
    let request := {| url := "/api/save-to-database";
                      method := "POST";
                      http_headers := json_headers;
                      body := extractedData s |} in
    extractedData s' = extractedData s
    /\ capturedImage s' = capturedImage s
    /\ (forall e, In (Uncaught e) (effects s') -> In (Uncaught e) (effects s))
    /\ (truthy (extractedData s) = false -> s' = s)
    /\ (truthy (extractedData s) = true ->
        forall response, net request = Some response -> ok response = true ->
        error s' = error s
        /\ effects s'
           = effects s ++ [ Fetch request;
                            Alert "Data successfully added to database" ])
    /\ (truthy (extractedData s) = true ->
        match net request with
        | Some response => ok response = false
        | None => True
        end ->
        error s' = Some "Failed to save to database. Please try again."
        /\ effects s' = effects s ++ [ Fetch request ]).
Proof.
  intros s net. cbv zeta.
  destruct (truthy (extractedData s)) eqn:Htruthy.
  - rewrite (addToDatabase_cases s net Htruthy). cbv zeta.
    destruct (net _) as [response|]; [destruct (ok response) eqn:Hok|];
      cbn [extractedData capturedImage effects error add_effect setError];
      repeat split; try discriminate; try tauto; try congruence;
      try (now rewrite <- app_assoc);
      intros e; rewrite ?in_app_iff; cbn; intuition discriminate.
  - assert (Hs : run_handler (addToDatabase net) s = s).
    { unfold run_handler, addToDatabase, bind, gets, ret. now rewrite Htruthy. }
    rewrite Hs. repeat split; auto; discriminate.
Qed.
End Save.

(** The save theorem at the extracted sample table with a stale error,
    against the development server: the alert is shown and the stale
    error stays. *)
Lemma addToDatabase_witness :
  error (run_handler (addToDatabase mock_server)
           (setError (Some "stale")
              (setExtractedData (of_TableData table_AB) with_image)))
  = Some "stale".
Proof.
  exact (proj1 (proj1 (proj2 (proj2 (proj2 (proj2
           (@addToDatabase_outcomes
              (setError (Some "stale")
                 (setExtractedData (of_TableData table_AB) with_image))
              mock_server)))))
           eq_refl {| status := 200; text := mock_body |} eq_refl eq_refl)).
Defined.

(** ** [downloadCSV] on arbitrary data *)

Section Download.
Context {RT : Runtime}.

(** Induction on values whose array case supplies the property for every
    element. *)
Lemma JSValue_elements_ind (P : JSValue -> Prop) :
  P JUndefined -> P JNull -> (forall b, P (JBool b)) -> (forall q, P (JNum q)) ->
  (forall str, P (JStr str)) ->
  (forall xs, Forall P xs -> P (JArr xs)) ->
  (forall fields, P (JObj fields)) ->
  forall v, P v.
Proof.
  intros Hu Hn Hb Hq Hs Ha Ho. fix IH 1.
  intros [| |b|q|str|xs|fields];
    [exact Hu|exact Hn|apply Hb|apply Hq|apply Hs| |apply Ho].
  apply Ha. induction xs as [|x xs IHxs]; constructor; [apply IH|exact IHxs].
Qed.

Lemma converts_array (xs : list JSValue) :
  converts (JArr xs) = forallb converts xs.
Proof.
  cbn [converts]. induction xs as [|x xs IH]; cbn [forallb];
    [reflexivity|now rewrite IH].
Qed.

Lemma ToString_array (xs : list JSValue) :
  ToString (JArr xs) = join_values "," xs.
Proof.
  unfold join_values. cbn [ToString].
  match goal with
  | |- match ?elems xs with _ => _ end = _ =>
      assert (H : elems xs = map_throwing join_element xs)
  end.
  { induction xs as [|x xs IH]; [reflexivity|].
    cbn [map_throwing]. rewrite <- IH. destruct x; reflexivity. }
  rewrite H. destruct (map_throwing join_element xs); reflexivity.
Qed.

Lemma cells_convert (xs : list JSValue) :
  Forall (fun v => if converts v then exists text, ToString v = inr text
                   else ToString v = inl TypeError) xs ->
  if forallb converts xs
  then exists parts, map_throwing join_element xs = inr parts
  else map_throwing join_element xs = inl TypeError.
Proof.
  induction 1 as [|x xs Hx Hxs IH]; cbn [forallb map_throwing].
  - eexists; reflexivity.
  - assert (Hel : if converts x then exists text, join_element x = inr text
                  else join_element x = inl TypeError).
    { destruct x; try exact Hx; eexists; reflexivity. }
    destruct (converts x); cbn [andb].
    + destruct Hel as [text ->]. destruct (forallb converts xs).
      * destruct IH as [parts ->]. eexists; reflexivity.
      * now rewrite IH.
    + now rewrite Hel.
Qed.

(** [ToString] succeeds exactly on the values that convert, and throws
    nothing but a [TypeError]. *)
Lemma ToString_converts (v : JSValue) :
  if converts v then exists text, ToString v = inr text
  else ToString v = inl TypeError.
Proof.
  induction v as [| |b|q|str|xs Hxs|fields] using JSValue_elements_ind;
    try (cbn; eexists; reflexivity).
  - destruct b; cbn; eexists; reflexivity.
  - rewrite converts_array, ToString_array. unfold join_values.
    pose proof (cells_convert Hxs) as H.
    destruct (forallb converts xs).
    + destruct H as [parts ->]. eexists; reflexivity.
    + now rewrite H.
  - cbn [converts ToString].
    destruct (lookup_field "toString" fields);
      [reflexivity|eexists; reflexivity].
Qed.

Lemma join_values_converts (sep : string) (xs : list JSValue) :
  if forallb converts xs then exists line, join_values sep xs = inr line
  else join_values sep xs = inl TypeError.
Proof.
  unfold join_values.
  assert (H : Forall (fun v => if converts v
                               then exists text, ToString v = inr text
                               else ToString v = inl TypeError) xs).
  { apply Forall_forall. intros v _. apply ToString_converts. }
  apply cells_convert in H. destruct (forallb converts xs).
  - destruct H as [parts ->]. eexists; reflexivity.
  - now rewrite H.
Qed.

Lemma rows_convert (rs : list JSValue) :
  if forallb (fun row => match row with
                         | JArr cells => forallb converts cells
                         | _ => false
                         end) rs
  then exists lines,
         map_throwing
           (fun row => and_then (as_array row)
                         (fun cells => join_values "," cells)) rs
         = inr lines
  else map_throwing
         (fun row => and_then (as_array row)
                       (fun cells => join_values "," cells)) rs
       = inl TypeError.
Proof.
  induction rs as [|r rs IH]; cbn [forallb map_throwing].
  - eexists; reflexivity.
  - destruct r as [| |b|q|str|cells|fs]; cbn [as_array and_then andb];
      try reflexivity.
    pose proof (join_values_converts "," cells) as Hrow.
    destruct (forallb converts cells); cbn [andb].
    + destruct Hrow as [line ->].
      match type of IH with
      | if ?c then _ else _ => destruct c
      end.
      * destruct IH as [lines ->]. eexists; reflexivity.
      * now rewrite IH.
    + now rewrite Hrow.
Qed.

(** [csv_of] succeeds exactly on exportable data, and throws nothing but
    a [TypeError]. *)
Lemma csv_of_exportable (data : JSValue) :
  if exportable data then exists content, csv_of data = inr content
  else csv_of data = inl TypeError.
Proof.
  unfold exportable, csv_of.
  destruct data as [| |b|q|str|xs|fields]; try reflexivity.
  cbn [get_prop].
  assert (Hh : exists hv,
             match lookup_field "headers" fields with
             | Some x => inr x
             | None => inr JUndefined
             end = @inr Exn JSValue hv)
    by (destruct (lookup_field "headers" fields); eauto).
  assert (Hr : exists rv,
             match lookup_field "rows" fields with
             | Some x => inr x
             | None => inr JUndefined
             end = @inr Exn JSValue rv)
    by (destruct (lookup_field "rows" fields); eauto).
  destruct Hh as [hv ->]. destruct Hr as [rv ->].
  destruct hv as [| |b|q|str|hs|fs]; cbn [and_then as_array];
    try reflexivity.
  pose proof (join_values_converts "," hs) as Hj.
  destruct rv as [| |b|q|str|rs|fs];
    (destruct (forallb converts hs);
     [destruct Hj as [first Hj]|]; rewrite Hj; cbn [and_then as_array andb];
     try reflexivity).
  pose proof (rows_convert rs) as Hrows.
  match type of Hrows with
  | if ?c then _ else _ => destruct c
  end.
  - destruct Hrows as [lines ->]. eexists; reflexivity.
  - now rewrite Hrows.
Qed.

(** [downloadCSV] has no [try]: for every value of [extractedData] it
    changes no state cell. A falsy value does nothing. A truthy value
    whose [headers], [rows] and every row are arrays and whose every cell
    converts to a string gives exactly one download; any other truthy
    value, a cell that is an object with an own toString property
    included, throws a [TypeError] out of the handler and nothing is
    downloaded. *)
Theorem downloadCSV_outcomes :
  forall (s : State) (now : string),
    let s' := run_handler (downloadCSV now) s in
    (truthy (extractedData s) = false -> s' = s)
    /\ (truthy (extractedData s) = true ->
        exportable (extractedData s) = true ->
        exists content,
          csv_of (extractedData s) = inr content
          /\ s' = add_effect (Download (csv_filename now) content) s)
    /\ (truthy (extractedData s) = true ->
        exportable (extractedData s) = false ->
        s' = add_effect (Uncaught TypeError) s).
Proof.
  intros s now. cbv zeta.
  unfold run_handler, downloadCSV, bind, gets, lift, emit, modify, ret.
  cbv beta. pose proof (csv_of_exportable (extractedData s)) as Hcsv.
  split; [|split].
  - now intros ->.
  - intros -> Hexp. cbn [negb]. rewrite Hexp in Hcsv.
    destruct Hcsv as [content Hcsv].
    exists content. rewrite Hcsv. split; reflexivity.
  - intros -> Hexp. cbn [negb]. rewrite Hexp in Hcsv. now rewrite Hcsv.
Qed.
End Download.

(** The download theorem at a table whose header cell has no string
    conversion: the handler throws and offers no file. *)
Lemma downloadCSV_outcomes_witness :
  run_handler (downloadCSV (RT := sample_runtime) "2024-01-15T09:30:00.000Z")
              (setExtractedData unprintable_table mounted)
  = add_effect (Uncaught TypeError) (setExtractedData unprintable_table mounted).
Proof.
  exact (proj2 (proj2 (@downloadCSV_outcomes sample_runtime
                         (setExtractedData unprintable_table mounted)
                         "2024-01-15T09:30:00.000Z"))
           eq_refl eq_refl).
Defined.

(** ** [capturePhoto] and [startCamera] at their edges *)

(** [capturePhoto] does nothing while the video or the canvas element is
    missing. With both present but no 2d context it only resizes the
    canvas: nothing is captured, the stream stays held and its tracks
    running, and the camera view stays as it is. With a context it
    stores the data URL, releases the stream and hides the view, and
    leaves the error message as it was. *)
Theorem capturePhoto_outcomes :
  forall (env : CaptureEnv) (s : State),
    let s' := run_handler (capturePhoto env) s in
    let resized := Some {| width := videoWidth env;
                           height := videoHeight env |} in
    ((videoRef s = None \/ canvasRef s = None) -> s' = s)
    /\ (videoRef s <> None -> canvasRef s <> None ->
        getContext env = false ->
        s' = set_canvasRef resized s)
    /\ (videoRef s <> None -> canvasRef s <> None ->
        getContext env = true ->
        s' = mkState (Some (toDataURL env)) (isProcessing s)
                     (extractedData s) (error s) false (videoRef s) resized
                     None (effects s ++ map TrackStop (active_tracks s))).
Proof.
  intros env s. cbv zeta.
  unfold run_handler, capturePhoto, bind, gets, modify, ret.
  cbv beta. split; [|split].
  - intros [->| ->]; [reflexivity|]. now destruct (videoRef s).
  - intros Hv Hc ->. destruct (videoRef s); [|contradiction].
    destruct (canvasRef s); [reflexivity|contradiction].
  - intros Hv Hc ->. destruct (videoRef s) eqn:Ev; [|contradiction].
    destruct (canvasRef s) eqn:Ec; [|contradiction].
    rewrite stopCamera_run. cbn. now rewrite Ev.
Qed.

(** The capture theorem at a shown camera view with no 2d context. *)
Lemma capturePhoto_outcomes_witness :
  streamRef
    (run_handler
       (capturePhoto {| videoWidth := 640; videoHeight := 480;
                        getContext := false; toDataURL := "data:," |})
       (set_streamRef (Some first_stream)
          (set_videoRef (Some {| srcObject := Some first_stream |})
             (setShowCamera true mounted))))
  = Some first_stream.
Proof.
  exact (f_equal streamRef
           (proj1 (proj2
              (capturePhoto_outcomes
                 {| videoWidth := 640; videoHeight := 480;
                    getContext := false; toDataURL := "data:," |}
                 (set_streamRef (Some first_stream)
                    (set_videoRef (Some {| srcObject := Some first_stream |})
                       (setShowCamera true mounted)))))
              ltac:(discriminate) ltac:(discriminate) eq_refl)).
Defined.

(** A granted [startCamera] takes the new stream without releasing
    anything: the stream reference is replaced, no track is stopped even
    when a stream was already held, and the error message, the captured
    image and the extracted data are as before. The camera view is shown
    only if the video element already exists. *)
Theorem startCamera_granted :
  forall (s : State) (stream : MediaStream),
    let s' := run_handler (startCamera (inr stream)) s in
    streamRef s' = Some stream
    /\ effects s' = effects s ++ [Acquired stream]
    /\ error s' = error s
    /\ capturedImage s' = capturedImage s
    /\ extractedData s' = extractedData s
    /\ showCamera s' = match videoRef s with
                       | Some _ => true
                       | None => showCamera s
                       end
    /\ videoRef s' = match videoRef s with
                     | Some _ => Some {| srcObject := Some stream |}
                     | None => None
                     end.
Proof.
  intros s stream. cbv zeta.
  unfold run_handler, startCamera, try_catch, bind, lift, emit, gets, modify,
    ret.
  cbv beta iota. cbn [videoRef set_streamRef add_effect].
  destruct (videoRef s) eqn:Ev; cbn; repeat split. exact Ev.
Qed.

(** ** Runs: what is never released twice, and the dead camera controls *)

Section Runs.
Context {RT : Runtime}.

Ltac quiet :=
  left; split;
  [ reflexivity
  | intros t0; unfold stop_count; cbn;
    rewrite ?filter_app, ?length_app; cbn; lia ].

(** What a handler does to the stream reference and to the stop counts:
    a grant replaces the reference and stops nothing; every other handler
    either leaves both alone or releases the held stream. *)
Lemma handler_stream_effect (ev : Event) (s : State) :
  match ev with
  | TakePhoto (inr stream) =>
      streamRef (run_handler (handler ev) s) = Some stream
      /\ forall t, stop_count t (run_handler (handler ev) s) = stop_count t s
  | _ =>
      (streamRef (run_handler (handler ev) s) = streamRef s
       /\ forall t, stop_count t (run_handler (handler ev) s) = stop_count t s)
      \/ (streamRef (run_handler (handler ev) s) = None
          /\ forall t,
               stop_count t (run_handler (handler ev) s)
               = stop_count t s + count_occ Nat.eq_dec (active_tracks s) t)
  end.
Proof.
  destruct ev as [[reason|stream] | file loaded | env | | net | | now | net];
    cbn [handler].
  - unfold_handlers. cbn. quiet.
  - unfold_handlers. cbv beta iota. destruct (videoRef _); cbn;
      (split; [reflexivity|]); intros t0; unfold stop_count; cbn;
      rewrite filter_app, length_app; cbn; lia.
  - unfold_handlers. split_cases; quiet.
  - unfold run_handler, capturePhoto, bind, gets, modify, ret.
    destruct (videoRef s), (canvasRef s); try quiet.
    destruct (getContext env); [|quiet].
    right. pose proof (stop_count_after_stopCamera) as H.
    rewrite stopCamera_run. split; [reflexivity|]. intros t0.
    specialize (H t0 (setCapturedImage (Some (toDataURL env))
                        (set_canvasRef
                           (Some {| width := videoWidth env;
                                    height := videoHeight env |}) s))).
    rewrite stopCamera_run in H. exact H.
  - unfold run_handler. right.
    pose proof (stop_count_after_stopCamera) as H.
    rewrite stopCamera_run. split; [reflexivity|]. intros t0.
    specialize (H t0 s). rewrite stopCamera_run in H. exact H.
  - unfold_handlers. cbv beta iota. split_cases; quiet.
  - unfold run_handler, resetApp, bind, modify. right.
    pose proof (stop_count_after_stopCamera) as H.
    rewrite stopCamera_run. split; [reflexivity|]. intros t0.
    specialize (H t0 (setError None
                        (setExtractedData JNull (setCapturedImage None s)))).
    rewrite stopCamera_run in H. exact H.
  - unfold_handlers. cbv beta iota. split_cases; quiet.
  - unfold_handlers. cbv beta iota. split_cases; quiet.
Qed.

Lemma granted_tracks_cons (ev : Event) (evs : list Event) :
  granted_tracks (ev :: evs) = grant_of ev ++ granted_tracks evs.
Proof. destruct ev as [[reason|stream]| | | | | | |]; reflexivity. Qed.

(** The same, in terms of the tracks held and the tracks brought in. *)
Lemma handler_tracks_effect (ev : Event) (s : State) :
  (active_tracks (run_handler (handler ev) s) = active_tracks s
   /\ grant_of ev = []
   /\ forall t, stop_count t (run_handler (handler ev) s) = stop_count t s)
  \/ (active_tracks (run_handler (handler ev) s) = []
      /\ grant_of ev = []
      /\ forall t,
           stop_count t (run_handler (handler ev) s)
           = stop_count t s + count_occ Nat.eq_dec (active_tracks s) t)
  \/ (active_tracks (run_handler (handler ev) s) = grant_of ev
      /\ forall t, stop_count t (run_handler (handler ev) s) = stop_count t s).
Proof.
  pose proof (handler_stream_effect ev s) as H. unfold active_tracks at 1 3 5.
  destruct ev as [[reason|stream]| | | | | | |]; cbn [grant_of];
    try (destruct H as [[-> H]|[-> H]];
         [left; repeat split; exact H
         |right; left; repeat split; exact H]).
  destruct H as [-> H]. right; right. split; [reflexivity|exact H].
Qed.

Lemma NoDup_app_disjoint (a b : list Track) (t : Track) :
  NoDup (a ++ b) -> In t b -> ~ In t a.
Proof.
  induction a as [|x a IH]; cbn; intros Hnd Hb; [tauto|].
  inversion Hnd as [|? ? Hx Hrest]; subst. intros [->|Ha].
  - apply Hx, in_or_app. now right.
  - now apply (IH Hrest Hb).
Qed.

Lemma run_stops_at_most_once (evs : list Event) :
  forall s s' : State,
    NoDup (active_tracks s ++ granted_tracks evs) ->
    (forall t, stop_count t s <= 1) ->
    (forall t, In t (active_tracks s ++ granted_tracks evs) ->
               stop_count t s = 0) ->
    run evs s = Some s' ->
    forall t, stop_count t s' <= 1.
Proof.
  induction evs as [|ev evs IH]; intros s s' Hnd Hle Hzero; cbn [run].
  - now intros [= <-].
  - unfold dispatch. destruct (enabled ev s); [|discriminate].
    destruct (render _); [discriminate|].
    rewrite granted_tracks_cons in Hnd, Hzero.
    apply IH; clear IH;
      change (active_tracks (commit (run_handler (handler ev) s)))
        with (active_tracks (run_handler (handler ev) s));
      try (intros t;
           change (stop_count t (commit (run_handler (handler ev) s)))
             with (stop_count t (run_handler (handler ev) s)));
      destruct (handler_tracks_effect ev s)
        as [[Ha [Hg Hc]]|[[Ha [Hg Hc]]|[Ha Hc]]];
      rewrite ?Ha, ?Hc; rewrite ?Hg in *; cbn [app] in *.
    + exact Hnd.
    + now apply NoDup_app_remove_l in Hnd.
    + now apply NoDup_app_remove_l in Hnd.
    + apply Hle.
    + destruct (in_dec Nat.eq_dec t (active_tracks s)) as [Hin|Hout].
      * rewrite (Hzero t (in_or_app _ _ _ (or_introl Hin))).
        apply NoDup_app_remove_r in Hnd.
        apply (proj1 (NoDup_count_occ Nat.eq_dec _) Hnd).
      * apply (count_occ_not_In Nat.eq_dec) in Hout. rewrite Hout.
        rewrite Nat.add_0_r. apply Hle.
    + apply Hle.
    + apply Hzero.
    + intros Hin.
      assert (Hout : ~ In t (active_tracks s))
        by (eapply NoDup_app_disjoint; eauto).
      apply (count_occ_not_In Nat.eq_dec) in Hout. rewrite Hout.
      rewrite Nat.add_0_r. apply Hzero, in_or_app. now right.
    + intros Hin. apply Hzero, in_or_app. now right.
Qed.

(** However the user drives the component, no track is stopped more than
    once, provided the streams the browser hands over share no track
    with one another. *)
Theorem tracks_never_stopped_twice :
  forall (evs : list Event) (s : State),
    NoDup (granted_tracks evs) ->
    run evs mounted = Some s ->
    forall t, stop_count t s <= 1.
Proof.
  intros evs s Hnd Hrun.
  eapply run_stops_at_most_once; [| | |exact Hrun]; cbn; auto.
Qed.

Lemma run_without_camera_controls (evs : list Event) :
  forall s s' : State,
    camera_hidden s ->
    run evs s = Some s' ->
    Forall (fun ev => camera_control ev = false) evs.
Proof.
  induction evs as [|ev evs IH]; intros s s' Hs; cbn [run].
  - constructor.
  - unfold dispatch. destruct (enabled ev s) eqn:Hen; [|discriminate].
    destruct (render _); [discriminate|]. intros Hrun. constructor.
    + destruct Hs as [Hshow _].
      destruct ev; try reflexivity; cbn [enabled] in Hen; congruence.
    + eapply IH; [|exact Hrun].
      apply (handler_camera_hidden ev) in Hs.
      destruct Hs as [Hshow Hvideo]. unfold camera_hidden, commit.
      cbn [showCamera videoRef set_canvasRef set_videoRef].
      rewrite Hshow. now split.
Qed.

(** The Capture and Cancel buttons can never be pressed: no run of the
    mounted component contains either event, so [capturePhoto] is never
    called and a photo can only come from an upload. *)
Theorem camera_controls_never_available :
  forall (evs : list Event) (s : State),
    run evs mounted = Some s ->
    Forall (fun ev => camera_control ev = false) evs.
Proof.
  intros evs s Hrun.
  eapply run_without_camera_controls; [|exact Hrun]. now split.
Qed.
End Runs.

(** The at-most-once theorem at the sample trace, for the track that is
    stopped. *)
Lemma tracks_never_stopped_twice_witness : stop_count 2 leak_final <= 1.
Proof.
  refine (@tracks_never_stopped_twice sample_runtime leak_trace leak_final
            _ eq_refl 2).
  cbn. repeat constructor; cbn; intuition discriminate.
Defined.

(** The dead-controls theorem at the sample trace. *)
Lemma camera_controls_witness :
  Forall (fun ev => camera_control ev = false) leak_trace.
Proof.
  exact (@camera_controls_never_available sample_runtime leak_trace leak_final
           eq_refl).
Defined.

(** ** The table on screen, and extraction followed by export *)

Section Table.
Context {RT : Runtime}.

Lemma strings_are_children (cells : list string) :
  forallb valid_child (map JStr cells) = true.
Proof. induction cells as [|c cells IH]; [reflexivity|exact IH]. Qed.

Lemma rows_are_arrays (rs : list (list string)) :
  map_throwing as_array (map (fun row => JArr (map JStr row)) rs)
  = inr (map (map JStr) rs).
Proof.
  induction rs as [|r rs IH]; cbn [map map_throwing as_array].
  - reflexivity.
  - now rewrite IH.
Qed.

Lemma rows_are_children (rs : list (list string)) :
  forallb (forallb valid_child) (map (map JStr) rs) = true.
Proof.
  induction rs as [|r rs IH]; cbn [map forallb].
  - reflexivity.
  - now rewrite strings_are_children, IH.
Qed.

Lemma render_TableData (s : State) (t : TableData) :
  extractedData s = of_TableData t -> render s = inr tt.
Proof.
  intros H. unfold render. rewrite H.
  change (truthy (of_TableData t)) with true.
  change (get_prop (of_TableData t) "headers")
    with (@inr Exn JSValue (JArr (map JStr (headers t)))).
  change (get_prop (of_TableData t) "rows")
    with (@inr Exn JSValue
            (JArr (map (fun row => JArr (map JStr row)) (rows t)))).
  cbn [negb and_then as_array].
  rewrite rows_are_arrays. cbn [and_then].
  now rewrite strings_are_children, rows_are_children.
Qed.

Lemma downloadCSV_of_table (now : string) (t : TableData) (s : State) :
  extractedData s = of_TableData t ->
  run_handler (downloadCSV now) s
  = add_effect (Download (csv_filename now) (csv_text t)) s.
Proof.
  intros H. unfold run_handler, downloadCSV, bind, gets, lift, emit, modify.
  cbv beta. rewrite H. change (truthy (of_TableData t)) with true.
  cbn [negb]. rewrite csv_of_TableData. reflexivity.
Qed.

(** The table on screen accepts every [TableData]: whatever the number of
    headers, rows and cells per row (rows shorter or longer than the
    header row included), rendering it throws nothing. *)
Theorem render_accepts_every_table :
  forall (s : State) (t : TableData),
    render (setExtractedData (of_TableData t) s) = inr tt.
Proof. intros s t. now apply render_TableData with (t := t). Qed.

(** Extraction followed by export: from a state showing a captured image
    and not processing, when the response is successful and carries a
    table, pressing Extract Table Data and then Download CSV both go
    through (the render in between succeeds and the export button is on
    screen), the table is kept, and the log gains exactly the extraction
    request and the download of the table's CSV text. *)
Theorem extract_then_download :
  forall (s : State) (img : string) (net : Network) (response : Response)
         (fields : list (string * JSValue)) (t : TableData) (now : string),
    capturedImage s = Some img ->
    truthy_str (Some img) = true ->
    isProcessing s = false ->
    net (process_request (nth_error (split "," img) 1)) = Some response ->
    ok response = true ->
    JSON_parse (text response) = Some (JObj fields) ->
    lookup_field "tableData" fields = Some (of_TableData t) ->
    exists s2,
      run [ExtractTableData net; DownloadCSV now] s = Some s2
      /\ extractedData s2 = of_TableData t
      /\ error s2 = None
      /\ effects s2
         = effects s
           ++ [ Fetch (process_request (nth_error (split "," img) 1));
                Download (csv_filename now) (csv_text t) ].
Proof.
  intros s img net response fields t now
         Himg Htruthy Hidle Hnet Hok Hparse Hfield.
  assert (Hget : get_prop (JObj fields) "tableData" = inr (of_TableData t)).
  { unfold get_prop. now rewrite Hfield. }
  pose proof (processImage_parsed_run s net Himg Htruthy Hnet Hok Hparse Hget)
    as Hrun.
  cbn [run]. unfold dispatch at 1. cbn [enabled handler].
  rewrite Himg, Htruthy, Hidle. cbn [andb negb]. rewrite Hrun.
  rewrite render_TableData with (t := t) by reflexivity.
  unfold dispatch. cbn [enabled handler].
  match goal with
  | |- context [run_handler (downloadCSV now) ?s1] =>
      rewrite (@downloadCSV_of_table now t s1 eq_refl);
      change (truthy (extractedData s1)) with true
  end.
  cbv beta iota.
  rewrite render_TableData with (t := t) by reflexivity.
  eexists. split; [reflexivity|]. cbn. rewrite <- app_assoc.
  repeat split.
Qed.
End Table.

(** The composition theorem at the sample image against the development
    server. *)
Lemma extract_then_download_witness :
  exists s2,
    run (RT := sample_runtime)
        [ExtractTableData mock_server; DownloadCSV "2024-01-15T09:30:00.000Z"]
        with_image = Some s2
    /\ extractedData s2 = of_TableData mock_table
    /\ error s2 = None
    /\ effects s2
       = effects with_image
         ++ [ Fetch (process_request (Some "AAAA"));
              Download "coal-log-2024-01-15.csv" (csv_text mock_table) ].
Proof.
  exact (@extract_then_download sample_runtime with_image
           "data:image/jpeg;base64,AAAA" mock_server
           {| status := 200; text := mock_body |}
           [("tableData", of_TableData mock_table)] mock_table
           "2024-01-15T09:30:00.000Z"
           eq_refl eq_refl eq_refl eq_refl eq_refl eq_refl eq_refl).
Defined.

(** ** [processTableImage]: requests, logging and failures *)

Section ClientRuns.
Context {RT : Runtime}.

(** Whatever the network answers, [processTableImage] first requests the
    key file and makes at most two requests. When it fails, the last
    thing it did was to log exactly the exception it fails with, once.
    When it succeeds, it logged nothing, made exactly the key-file and the
    endpoint request, and returns an object whose only property is
    [tableData]. *)
Theorem processTableImage_discipline :
  forall (net : Network) (imageBase64 prompt : string)
         (log : GeminiClient.World),
    let r := GeminiClient.processTableImage net imageBase64 prompt log in
    (exists tail, fst r = log ++ Fetch GeminiClient.key_file_request :: tail)
    /\ (forall e, snd r = inl e ->
          exists requests,
            fst r = log ++ requests
                        ++ [ConsoleError "Error processing image:" e]
            /\ forallb is_fetch requests = true
            /\ List.length requests <= 2)
    /\ (forall v, snd r = inr v ->
          exists key tableData,
            fst r = log ++ [ Fetch GeminiClient.key_file_request;
                             Fetch (GeminiClient.gemini_request key
                                      imageBase64 prompt) ]
            /\ v = JObj [ ("tableData", tableData) ]).
Proof.
  intros net imageBase64 prompt log. cbv zeta.
  unfold_client. cbv beta. split_cases; cbn [fst snd];
    rewrite <- ?app_assoc; cbn [app];
    (split; [eexists; reflexivity|]);
    (split; [intros e0 [= <-] | intros v0 [= <-]]);
    try discriminate.
  all: try (eexists _, _; split; reflexivity).
  all: first
         [ eexists [_; _]; split; [reflexivity|split; [reflexivity|cbn; lia]]
         | eexists [_]; split; [reflexivity|split; [reflexivity|cbn; lia]] ].
Qed.

(** The failures of [processTableImage] before any model output is read:
    a rejected key-file request fails with the rejection and the endpoint
    is not called; a rejected endpoint request fails with the rejection;
    a non-success status from the endpoint fails with the fixed message,
    whatever the body says. *)
Theorem processTableImage_failures :
  forall (net : Network) (imageBase64 prompt : string)
         (log : GeminiClient.World),
    (net GeminiClient.key_file_request = None ->
     GeminiClient.processTableImage net imageBase64 prompt log
     = (log ++ [ Fetch GeminiClient.key_file_request;
                 ConsoleError "Error processing image:" TypeError ],
        inl TypeError))
    /\ (forall (keyResponse : Response) (group1 : string),
          net GeminiClient.key_file_request = Some keyResponse ->
          match_literal_dots "GEMINI_API_KEY=" (text keyResponse)
          = Some group1 ->
          let request :=
            GeminiClient.gemini_request (trim group1) imageBase64 prompt in
          (net request = None ->
           GeminiClient.processTableImage net imageBase64 prompt log
           = (log ++ [ Fetch GeminiClient.key_file_request; Fetch request;
                       ConsoleError "Error processing image:" TypeError ],
              inl TypeError))
          /\ (forall geminiResponse,
                 net request = Some geminiResponse ->
                 ok geminiResponse = false ->
                 GeminiClient.processTableImage net imageBase64 prompt log
                 = (log ++ [ Fetch GeminiClient.key_file_request;
                             Fetch request;
                             ConsoleError "Error processing image:"
                               (Error "Failed to process image with Gemini API") ],
                    inl (Error "Failed to process image with Gemini API")))).
Proof.
  intros net imageBase64 prompt log. split.
  - intros Hkey. unfold_client. cbv beta. rewrite Hkey. cbv beta iota.
    now rewrite <- app_assoc.
  - intros keyResponse group1 Hkey Hmatch request. split.
    + intros Hnet. unfold_client. cbv beta. rewrite Hkey. cbv beta iota.
      rewrite Hmatch. cbv beta iota. fold request. rewrite Hnet.
      cbv beta iota. now rewrite <- !app_assoc.
    + intros geminiResponse Hnet Hok. unfold_client. cbv beta.
      rewrite Hkey. cbv beta iota. rewrite Hmatch. cbv beta iota.
      fold request. rewrite Hnet, Hok. cbn [negb].
      now rewrite <- !app_assoc.
Qed.
End ClientRuns.

(** ** What the key pattern captures *)

Lemma strip_prefix_sound (lit s rest : string) :
  strip_prefix lit s = Some rest -> s = (lit ++ rest)%string.
Proof.
  revert s. induction lit as [|a lit IH]; intros s; cbn [strip_prefix append].
  - now intros [= ->].
  - destruct s as [|b s]; [discriminate|].
    destruct (Ascii.eqb_spec a b) as [->|_]; [|discriminate].
    intros H. now rewrite (IH _ H).
Qed.

Lemma dot_run_sound (s : string) :
  exists rest,
    s = (dot_run s ++ rest)%string
    /\ single_line (dot_run s) = true
    /\ line_end rest = true.
Proof.
  induction s as [|c s [rest [Heq [Hline Hend]]]]; cbn [dot_run].
  - now exists EmptyString.
  - destruct (is_line_terminator c) eqn:Hc.
    + exists (String c s). cbn. now rewrite Hc.
    + exists rest. cbn [append single_line]. rewrite Hc, Hline.
      now rewrite <- Heq.
Qed.

Lemma match_here_sound (lit s cap : string) :
  match_here lit s = Some cap ->
  exists rest,
    s = (lit ++ cap ++ rest)%string
    /\ cap <> EmptyString
    /\ single_line cap = true
    /\ line_end rest = true.
Proof.
  unfold match_here.
  destruct (strip_prefix lit s) as [after|] eqn:Hstrip; [|discriminate].
  apply strip_prefix_sound in Hstrip.
  destruct (dot_run_sound after) as [rest [Heq [Hline Hend]]].
  destruct (dot_run after) as [|c run] eqn:Hrun; [discriminate|].
  intros [= <-]. exists rest. rewrite Hstrip, Heq at 1.
  repeat split; auto. discriminate.
Qed.

Lemma match_here_complete (lit : string) (c : ascii) (rest : string) :
  is_line_terminator c = false ->
  match_here lit (lit ++ String c rest)%string <> None.
Proof.
  intros Hc. unfold match_here. rewrite strip_prefix_app. cbn [dot_run].
  rewrite Hc. discriminate.
Qed.

Lemma match_literal_dots_sound (lit : string) :
  forall s cap : string,
    match_literal_dots lit s = Some cap ->
    exists pre rest,
      s = (pre ++ lit ++ cap ++ rest)%string
      /\ cap <> EmptyString
      /\ single_line cap = true
      /\ line_end rest = true
      /\ (forall (pre' : string) (c : ascii) (rest' : string),
             is_line_terminator c = false ->
             s = (pre' ++ lit ++ String c rest')%string ->
             String.length pre <= String.length pre').
Proof.
  induction s as [|a s IH]; intros cap; cbn [match_literal_dots].
  - destruct (match_here lit EmptyString) as [cap'|] eqn:Hhere;
      [|discriminate].
    intros [= <-]. destruct (match_here_sound _ _ Hhere) as [rest H].
    exists EmptyString, rest. cbn [append String.length].
    repeat split; try apply H. intros. lia.
  - destruct (match_here lit (String a s)) as [cap'|] eqn:Hhere.
    + intros [= <-]. destruct (match_here_sound _ _ Hhere) as [rest H].
      exists EmptyString, rest. cbn [append String.length].
      repeat split; try apply H. intros. lia.
    + intros Hrec. destruct (IH _ Hrec) as [pre [rest [Heq [Hne [Hl [He Hmin]]]]]].
      exists (String a pre), rest. cbn [append String.length].
      repeat split; auto.
      * now rewrite <- Heq.
      * intros pre' c rest' Hc Hs. destruct pre' as [|b pre'].
        -- exfalso. cbn [append] in Hs. rewrite Hs in Hhere.
           now apply (@match_here_complete lit c rest' Hc).
        -- cbn [append String.length] in *. injection Hs as _ Hs.
           apply le_n_S. now apply (Hmin pre' c rest').
Qed.

Lemma trimStart_blank (v : string) : blank v = true -> trimStart v = EmptyString.
Proof.
  induction v as [|c v IH]; cbn [blank trimStart]; [reflexivity|].
  intros H. apply andb_true_iff in H as [H Hv].
  apply andb_true_iff in H as [Hc _]. rewrite Hc. now apply IH.
Qed.

Lemma blank_single_line (v : string) : blank v = true -> single_line v = true.
Proof.
  induction v as [|c v IH]; cbn [blank single_line]; [reflexivity|].
  intros H. apply andb_true_iff in H as [H Hv].
  apply andb_true_iff in H as [_ Hc]. now rewrite Hc, IH.
Qed.

Section Key.
Context {RT : Runtime}.

Lemma processTableImage_calls_endpoint
      (net : Network) (imageBase64 prompt : string)
      (log : GeminiClient.World) (keyResponse : Response) (group1 : string) :
  net GeminiClient.key_file_request = Some keyResponse ->
  match_literal_dots "GEMINI_API_KEY=" (text keyResponse) = Some group1 ->
  exists tail outcome,
    GeminiClient.processTableImage net imageBase64 prompt log
    = (log ++ Fetch GeminiClient.key_file_request
           :: Fetch (GeminiClient.gemini_request (trim group1)
                       imageBase64 prompt) :: tail,
       outcome).
Proof.
  intros Hkey Hmatch. unfold_client. cbv beta. rewrite Hkey. cbv beta iota.
  rewrite Hmatch. cbv beta iota. split_cases;
    rewrite <- ?app_assoc; cbn [app]; eexists _, _; reflexivity.
Qed.

(** For a key file made of one-byte characters, the key
    [processTableImage] uses comes from the first place in the file where
    GEMINI_API_KEY= is followed by a character of the same line: the
    captured text is the rest of that line, up to the next CR or LF (the
    line terminators among one-byte characters) or the end of the file.
    The second request is then made to the endpoint address followed by
    the trimmed captured text. Later lines and later occurrences are
    ignored. *)
Theorem processTableImage_key_is_rest_of_first_line :
  forall (net : Network) (imageBase64 prompt : string)
         (log : GeminiClient.World) (keyResponse : Response) (group1 : string),
    let key_request :=
      {| url := "/.api_key"; method := "GET"; http_headers := [];
         body := JUndefined |} in
    net key_request = Some keyResponse ->
    match_literal_dots "GEMINI_API_KEY=" (text keyResponse) = Some group1 ->
    (exists pre rest,
        text keyResponse
        = (pre ++ "GEMINI_API_KEY=" ++ group1 ++ rest)%string
        /\ group1 <> EmptyString
        /\ single_line group1 = true
        /\ line_end rest = true
        /\ (forall (pre' : string) (c : ascii) (rest' : string),
               is_line_terminator c = false ->
               text keyResponse
               = (pre' ++ "GEMINI_API_KEY=" ++ String c rest')%string ->
               String.length pre <= String.length pre'))
    /\ (exists request tail outcome,
           GeminiClient.processTableImage net imageBase64 prompt log
           = (log ++ Fetch key_request :: Fetch request :: tail, outcome)
           /\ url request
              = ("https://generativelanguage.googleapis.com/v1beta/models/gemini-1.5-flash:generateContent?key="
                   ++ trim group1)%string).
Proof.
  intros net imageBase64 prompt log keyResponse group1 key_request
         Hkey Hmatch.
  change key_request with GeminiClient.key_file_request in *. split.
  - now apply match_literal_dots_sound.
  - destruct (processTableImage_calls_endpoint net imageBase64 prompt log
                Hkey Hmatch) as [tail [outcome H]].
    eexists _, tail, outcome. split; [exact H|reflexivity].
Qed.

(** A key line whose value is only white space is taken as a key: the
    pattern matches, the trimmed key is empty, and the endpoint is called
    with an empty key instead of the missing-key error being raised. *)
Theorem processTableImage_accepts_blank_key :
  forall (net : Network) (imageBase64 prompt : string)
         (log : GeminiClient.World) (keyResponse : Response)
         (v rest : string),
    net GeminiClient.key_file_request = Some keyResponse ->
    text keyResponse = ("GEMINI_API_KEY=" ++ v ++ rest)%string ->
    v <> EmptyString -> blank v = true -> line_end rest = true ->
    exists tail outcome,
      GeminiClient.processTableImage net imageBase64 prompt log
      = (log ++ Fetch GeminiClient.key_file_request
             :: Fetch (GeminiClient.gemini_request "" imageBase64 prompt)
             :: tail,
         outcome)
      /\ url (GeminiClient.gemini_request "" imageBase64 prompt)
         = GeminiClient.endpoint.
Proof.
  intros net imageBase64 prompt log keyResponse v rest
         Hkey Htext Hne Hblank Hend.
  assert (Hmatch : match_literal_dots "GEMINI_API_KEY=" (text keyResponse)
                   = Some v).
  { rewrite Htext. apply match_literal_dots_line; auto.
    now apply blank_single_line. }
  destruct (processTableImage_calls_endpoint net imageBase64 prompt log
              Hkey Hmatch) as [tail [outcome H]].
  unfold trim in H. rewrite (trimStart_blank v Hblank) in H. cbn [trimEnd] in H.
  exists tail, outcome. split; [exact H|].
  cbn [url GeminiClient.gemini_request]. apply append_empty_r.
Qed.
End Key.

(** The discipline theorem against the sample network: the key file is
    requested first. *)
Lemma processTableImage_discipline_witness :
  exists tail,
    fst (GeminiClient.processTableImage (RT := sample_runtime) gemini_network
           "AAAA" "Extract the table" [])
    = [] ++ Fetch GeminiClient.key_file_request :: tail.
Proof.
  exact (proj1 (@processTableImage_discipline sample_runtime gemini_network
                  "AAAA" "Extract the table" [])).
Defined.

(** The failure theorem on a network that rejects every request. *)
Lemma processTableImage_failures_witness :
  GeminiClient.processTableImage (RT := sample_runtime) dead_network
    "AAAA" "Extract the table" []
  = ([] ++ [ Fetch GeminiClient.key_file_request;
             ConsoleError "Error processing image:" TypeError ],
     inl TypeError).
Proof.
  exact (proj1 (@processTableImage_failures sample_runtime dead_network
                  "AAAA" "Extract the table" []) eq_refl).
Defined.

(** The key theorem at the sample key file, whose first line is a
    comment and whose second line holds the key between spaces. *)
Lemma processTableImage_key_witness :
  exists request tail outcome,
    GeminiClient.processTableImage (RT := sample_runtime) gemini_network
      "AAAA" "Extract the table" []
    = ([] ++ Fetch {| url := "/.api_key"; method := "GET";
                      http_headers := []; body := JUndefined |}
          :: Fetch request :: tail,
       outcome)
    /\ url request
       = "https://generativelanguage.googleapis.com/v1beta/models/gemini-1.5-flash:generateContent?key=abc123".
Proof.
  exact (proj2 (@processTableImage_key_is_rest_of_first_line sample_runtime
                  gemini_network "AAAA" "Extract the table" []
                  {| status := 200; text := key_file_text |} " abc123 "
                  eq_refl eq_refl)).
Defined.

(** The blank-key theorem at a key file holding three spaces after the
    key name. *)
Lemma processTableImage_blank_key_witness :
  exists tail outcome,
    GeminiClient.processTableImage (RT := sample_runtime) blank_key_network
      "AAAA" "Extract the table" []
    = ([] ++ Fetch GeminiClient.key_file_request
          :: Fetch (GeminiClient.gemini_request "" "AAAA" "Extract the table")
          :: tail,
       outcome)
    /\ url (GeminiClient.gemini_request "" "AAAA" "Extract the table")
       = GeminiClient.endpoint.
Proof.
  refine (@processTableImage_accepts_blank_key sample_runtime
            blank_key_network "AAAA" "Extract the table" []
            {| status := 200; text := ("GEMINI_API_KEY=   " ++ nl)%string |}
            "   " nl eq_refl eq_refl _ eq_refl eq_refl).
  discriminate.
Defined.

(** ** Extraction that outlives a reset *)

Section Late.
Context {RT : Runtime}.

(** The two parts of [processImage], run back to back against a network,
    are the handler. *)
Lemma processImage_in_two_parts (net : Network) (s : State) :
  run_handler (processImage net) s
  = match Async.processImage_begin s with
    | (s1, inr (Some request)) =>
        run_handler (Async.processImage_resume (net request)) s1
    | (s1, _) => s1
    end.
Proof.
  unfold run_handler, processImage, Async.processImage_begin,
    Async.processImage_resume, try_finally, try_catch, fetch, json,
    bind, emit, gets, lift, modify, throw, ret.
  cbv beta. destruct (negb (truthy_str (capturedImage s))); [reflexivity|].
  cbv beta iota. destruct (net _) as [response|]; reflexivity.
Qed.

(** A response that arrives late is not discarded. Whatever state the
    component is in when a successful response carrying a table arrives,
    the resumed handler stores the table and clears the processing flag
    and changes nothing else. In particular, after Start Over was pressed
    while the request was in flight, the arriving response puts the table
    back on screen, with no captured image, and Download CSV is
    available. *)
Theorem late_response_is_not_discarded :
  forall (response : Response) (fields : list (string * JSValue))
         (t : TableData),
    ok response = true ->
    JSON_parse (text response) = Some (JObj fields) ->
    lookup_field "tableData" fields = Some (of_TableData t) ->
    (forall current : State,
        run_handler (Async.processImage_resume (Some response)) current
        = setIsProcessing false (setExtractedData (of_TableData t) current))
    /\ (forall (s : State) (now : string),
           let arrived :=
             run_handler (Async.processImage_resume (Some response))
               (run_handler resetApp (Async.in_flight s)) in
           capturedImage arrived = None
           /\ extractedData arrived = of_TableData t
           /\ render arrived = inr tt
           /\ enabled (DownloadCSV now) arrived = true).
Proof.
  intros response fields t Hok Hparse Hfield.
  assert (Hresume : forall current : State,
             run_handler (Async.processImage_resume (Some response)) current
             = setIsProcessing false
                 (setExtractedData (of_TableData t) current)).
  { intros current.
    unfold run_handler, Async.processImage_resume, try_finally, try_catch,
      json, bind, lift, modify, throw, ret.
    cbv beta iota. rewrite Hok. cbn [negb]. rewrite Hparse.
    unfold get_prop. rewrite Hfield. reflexivity. }
  split; [exact Hresume|].
  intros s now. cbv zeta. rewrite Hresume.
  unfold run_handler at 1, resetApp, bind, modify. rewrite stopCamera_run.
  repeat split.
  apply render_TableData with (t := t). reflexivity.
Qed.
End Late.

(** The late-response theorem at the sample image, reset while the
    request to the development server is in flight. *)
Lemma late_response_witness :
  capturedImage
    (run_handler (Async.processImage_resume (RT := sample_runtime)
                    (Some {| status := 200; text := mock_body |}))
       (run_handler resetApp (Async.in_flight with_image))) = None
  /\ extractedData
       (run_handler (Async.processImage_resume (RT := sample_runtime)
                       (Some {| status := 200; text := mock_body |}))
          (run_handler resetApp (Async.in_flight with_image)))
     = of_TableData mock_table.
Proof.
  pose proof (proj2 (@late_response_is_not_discarded sample_runtime
                       {| status := 200; text := mock_body |}
                       [("tableData", of_TableData mock_table)] mock_table
                       eq_refl eq_refl eq_refl)
                with_image "2024-01-15T09:30:00.000Z") as H.
  exact (conj (proj1 H) (proj1 (proj2 H))).
Defined.
